(** * Election dashboard: the aggregation pipeline of [election_dashboard.py]

    The script loads one table ([df]) and derives from it the KPI tiles, the
    map layers, the top-5 ranking and its long form, the per-LGA means and
    the historical series.  This development embeds those computations and
    the script's control flow, and proves the properties stated about them.

    Conventions of the embedding.
    - A cell that pandas shows as NaN/None is [None]; a present cell is
      [Some v].
    - Real-valued cells (coordinates, ratios, scores) are float64 values.  A
      finite float64 is written as the rational it denotes, so such a cell
      is a [Q], and NaN is [None].  An operation on two of them is the exact
      operation followed by the rounding to the nearest float64, halves to
      even ([rnd]).  The infinities have no representation here: what is
      proved about computed scores is for tables whose scores are far from
      the largest float64 ([finite_range]).
    - [Series.mean] adds its values in an order that depends on the kernel
      installed (numpy's pairwise summation or bottleneck's loop); that sum
      is an interface ([FloatSum]).  [groupby(...).mean()] is pandas' own
      loop, embedded as it is.
    - Count cells are integers [Z]; the dtype of a count column follows
      pandas' inference (no rows: object, all present: int64, otherwise
      float64) because the result of a sum, and of a division by zero,
      depends on it.
    - [DataFrame.sort_values] is called with its default [kind]
      (quicksort), for which numpy promises an ascending ordering of the
      positions and nothing about ties; the sorting routine is therefore an
      interface ([ArgSort]) and the results hold for each implementation.
      numpy's portable quicksort ([npy_aquicksort]) is one of them. *)

From Stdlib Require Import String Ascii.
From Stdlib Require Import List Bool Arith NArith ZArith QArith Qabs Qpower Lia Lqa.
From Stdlib Require Import Permutation Sorted.
Import ListNotations.

Local Open Scope nat_scope.

(** ** Cells, rows and frames *)

Definition isna {A : Type} (o : option A) : bool :=
  match o with None => true | Some _ => false end.

Definition notna {A : Type} (o : option A) : bool := negb (isna o).

(** [Series.dropna().values]: the present values, in row order. *)
Fixpoint dropna {A : Type} (col : list (option A)) : list A :=
  match col with
  | [] => []
  | Some v :: t => v :: dropna t
  | None :: t => dropna t
  end.

(** One row of the loaded table, a field per column the script reads. *)
Record Row : Type := mkRow {
  PU_Code : option string;
  PU_Name : option string;
  LGA : option string;
  Latitude : option Q;
  Longitude : option Q;
  Total_Votes : option Z;
  Registered_Voters : option Z;
  Accredited_Voters : option Z;
  APC : option Z;
  PDP : option Z;
  LP : option Z;
  NNPP : option Z;
  HDBSCAN_Cluster : option Z;
  Accredited_Ratio : option Q;
  Global_Composite_Score : option Q;
  APC_z_score : option Q;
  PDP_z_score : option Q;
  LP_z_score : option Q;
  NNPP_z_score : option Q;
  color : option string
}.

(** A loaded table: its header and its rows (with the default RangeIndex,
    so that the label of a row is its position).  The cells of a column that
    is absent from the header are never read: every access goes through the
    header first and raises [KeyError]. *)
Record DataFrame : Type := mkFrame {
  columns : list string;
  rows : list Row
}.

Inductive exn : Type :=
| KeyError (column : string)
| ZeroDivisionError
| ValueError (message : string)
| TypeError.

Inductive result (A : Type) : Type :=
| Ok (a : A)
| Raise (e : exn).

Arguments Ok {A} a.
Arguments Raise {A} e.

(** ** Positional indexing *)

(** [l[idx]] for an integer indexer.  Every indexer built below is a
    permutation of the positions of [l] (see [nargsort_perm]), so no
    position is out of range; such a position would contribute nothing
    here. *)
Definition take {A : Type} (l : list A) (idx : list nat) : list A :=
  flat_map (fun i => match nth_error l i with Some x => [x] | None => [] end) idx.

(** [l[mask]] for a boolean mask. *)
Fixpoint mask_select {A : Type} (mask : list bool) (l : list A) : list A :=
  match mask, l with
  | b :: m, x :: t => if b then x :: mask_select m t else mask_select m t
  | _, _ => []
  end.

(** ** KPI reducer (lines 44-48) *)

Definition cell_eqb (a b : option string) : bool :=
  match a, b with
  | Some x, Some y => String.eqb x y
  | None, None => true
  | _, _ => false
  end.

(** [Series.unique]: the distinct cells in order of first appearance. *)
Fixpoint unique_from (seen l : list (option string)) : list (option string) :=
  match l with
  | [] => []
  | x :: t =>
      if existsb (cell_eqb x) seen then unique_from seen t
      else x :: unique_from (x :: seen) t
  end.

Definition unique (col : list (option string)) : list (option string) :=
  unique_from [] col.

(** [Series.nunique()], with its default [dropna=True]. *)
Definition nunique (col : list (option string)) : nat :=
  length (filter notna (unique col)).

Definition total_polling_units (df : list Row) : nat :=
  nunique (map PU_Code df).

Inductive dtype : Type := object | int64 | float64.

(** The dtype [read_csv] gives a column of counts whose cells fit int64. *)
Definition infer_dtype (col : list (option Z)) : dtype :=
  match col with
  | [] => object
  | _ => if forallb notna col then int64 else float64
  end.

Definition wrap64 (z : Z) : Z := ((z + 2 ^ 63) mod 2 ^ 64 - 2 ^ 63)%Z.

(** The sum of the present cells ([skipna=True]). *)
Definition nansum (col : list (option Z)) : Z :=
  fold_right Z.add 0%Z (dropna col).


(** A scalar as [Series.sum] returns it: a Python [int] for an object
    column, a numpy scalar otherwise.  The int64 sum wraps around.  The
    float64 sum is given as the sum of the cells, which is what every
    summation order returns as long as the magnitudes add up to 2^53 at
    most ([plain_counts]). *)
Record scalar : Type := mkScalar { sdtype : dtype; sval : Z }.

Definition series_sum (col : list (option Z)) : scalar :=
  match infer_dtype col with
  | int64 => mkScalar int64 (wrap64 (nansum col))
  | d => mkScalar d (nansum col)
  end.

(** float64 values: the rationals and the three non-finite values. *)
Inductive float : Type :=
| Finite (q : Q)
| PInf
| NInf
| NaN.

(** [a / b]: Python's true division raises on two Python ints with a zero
    divisor; as soon as one operand is a numpy scalar the division is
    numpy's, which warns and returns a non-finite value. *)
Definition true_divide (a b : scalar) : result float :=
  match sdtype a, sdtype b with
  | object, object =>
      if (sval b =? 0)%Z then Raise ZeroDivisionError
      else Ok (Finite (inject_Z (sval a) / inject_Z (sval b)))
  | _, _ =>
      if (sval b =? 0)%Z then
        Ok (if (sval a =? 0)%Z then NaN
            else if (0 <? sval a)%Z then PInf else NInf)
      else Ok (Finite (inject_Z (sval a) / inject_Z (sval b)))
  end.

Definition fmul (x : float) (k : Q) : float :=
  match x with
  | Finite q => Finite (q * k)
  | other => other
  end.

Definition total_votes (df : list Row) : Z := sval (series_sum (map Total_Votes df)).

Definition total_registered (df : list Row) : scalar :=
  series_sum (map Registered_Voters df).

Definition total_accredited (df : list Row) : scalar :=
  series_sum (map Accredited_Voters df).

(** Line 48: [(total_accredited / total_registered) * 100]. *)
Definition turnout (accredited registered : scalar) : result float :=
  match true_divide accredited registered with
  | Ok x => Ok (fmul x 100)
  | Raise e => Raise e
  end.

Definition voter_turnout (df : list Row) : result float :=
  turnout (total_accredited df) (total_registered df).

(** ** float64 arithmetic *)

(** Nearest integer, halves to the even neighbour. *)
Definition rint (q : Q) : Z :=
  let n := Qnum q in
  let d := Zpos (Qden q) in
  let fl := (n / d)%Z in
  match (2 * (n mod d) ?= d)%Z with
  | Lt => fl
  | Gt => (fl + 1)%Z
  | Eq => if Z.even fl then fl else (fl + 1)%Z
  end.

(** [floor (log2 |x|)], for [x] other than zero. *)
Definition ilog2 (x : Q) : Z :=
  let k := (Z.log2 (Z.abs (Qnum x)) - Z.log2 (Zpos (Qden x)))%Z in
  if Qle_bool (Qpower 2 k) (Qabs x) then k else (k - 1)%Z.

(** The float64 nearest to [x], halves to the even significand.  A float64
    has 53 significant bits; below 2^-1022 the spacing stays 2^-1074. *)
Definition rnd (x : Q) : Q :=
  let x := Qred x in
  if Qeq_bool x 0 then 0%Q
  else let e := Z.max (ilog2 x - 52) (-1074) in
       Qred (inject_Z (rint (x / Qpower 2 e)) * Qpower 2 e).

Definition float_add (x y : Q) : Q := rnd (x + y).
Definition float_sub (x y : Q) : Q := rnd (x - y).
Definition float_mul (x y : Q) : Q := rnd (x * y).
Definition float_div (x y : Q) : Q := rnd (x / y).

(** [np.float64(z)] for an integer: below 2^53 the integer itself, above it
    the nearest multiple of the spacing, which is an integer again. *)
Definition float_of_int (z : Z) : Z :=
  let a := Z.abs z in
  if (a <? 2 ^ 53)%Z then z
  else let e := (Z.log2 a - 52)%Z in
       (Z.sgn z * (rint (a # Z.to_pos (2 ^ e)) * 2 ^ e))%Z.

(** The sum of a float64 array, as the installed kernel computes it. *)
Class FloatSum : Type := mkFloatSum {
  fsum : list Q -> Q
}.

(** The array that is summed for a column with [skipna=True]: zero in the
    place of a missing cell. *)
Definition zero_filled (col : list (option Q)) : list Q :=
  map (fun c => match c with Some v => v | None => 0%Q end) col.

(** ** Map layers (lines 74-95) *)

(** [Series.mean()]: the sum of the column over the number of its present
    cells, NaN when there is none. *)
Definition nanmean {summation : FloatSum} (col : list (option Q)) : option Q :=
  match dropna col with
  | [] => None
  | vs => Some (float_div (fsum (zero_filled col)) (inject_Z (Z.of_nat (length vs))))
  end.

(** folium's [validate_location], called by [folium.Map] and
    [folium.Marker]. *)
Definition validate_location (lat lon : option Q) : result (Q * Q) :=
  match lat, lon with
  | Some a, Some b => Ok (a, b)
  | _, _ => Raise (ValueError "Location values cannot contain NaNs.")
  end.

Record Popup : Type := mkPopup {
  popup_name : option string;
  popup_cluster : option Z;
  popup_votes : option Z;
  popup_ratio : option Q;
  popup_score : option Q
}.

Record MarkerT : Type := mkMarker {
  location : Q * Q;
  popup : Popup;
  icon_color : option string
}.

Definition popup_text (r : Row) : Popup :=
  mkPopup (PU_Name r) (HDBSCAN_Cluster r) (Total_Votes r)
          (Accredited_Ratio r) (Global_Composite_Score r).

(** [row[c]] inside the loop: a label the row does not have is a
    [KeyError]. *)
Definition has_column (header : list string) (c : string) : bool :=
  existsb (String.eqb c) header.

Fixpoint require_columns (header cs : list string) : result unit :=
  match cs with
  | [] => Ok tt
  | c :: t => if has_column header c then require_columns header t
              else Raise (KeyError c)
  end.

(** The labels one iteration of the loop reads, in evaluation order: the
    popup text, the location list, the icon; [folium.Marker] validates the
    location once its arguments are evaluated. *)
Definition marker_columns : list string :=
  ["PU-Name"; "HDBSCAN_Cluster"; "Total_Votes"; "Accredited_Ratio";
   "Global_Composite_Score"; "Latitude"; "Longitude"; "color"]%string.

Definition marker_of_row (header : list string) (r : Row) : result MarkerT :=
  match require_columns header marker_columns with
  | Raise e => Raise e
  | Ok _ =>
      match validate_location (Latitude r) (Longitude r) with
      | Ok loc => Ok (mkMarker loc (popup_text r) (color r))
      | Raise e => Raise e
      end
  end.

(** The loop of lines 79-91: one marker per row of [df], every row included;
    the first exception ends the loop. *)
Fixpoint marker_loop (header : list string) (l : list Row) : result (list MarkerT) :=
  match l with
  | [] => Ok []
  | r :: t =>
      match marker_of_row header r with
      | Raise e => Raise e
      | Ok m =>
          match marker_loop header t with
          | Ok ms => Ok (m :: ms)
          | Raise e => Raise e
          end
      end
  end.

Definition marker_cluster (df : DataFrame) : result (list MarkerT) :=
  marker_loop (columns df) (rows df).

Definition complete_geo (r : Row) : bool :=
  notna (Latitude r) && notna (Longitude r) && notna (Global_Composite_Score r).

(** Line 94: the three columns, [dropna()], as a list of triples. *)
Definition heat_data (df : list Row) : list (Q * Q * Q) :=
  flat_map (fun r =>
    match Latitude r, Longitude r, Global_Composite_Score r with
    | Some a, Some b, Some c => [(a, b, c)]
    | _, _, _ => []
    end) df.

(** ** Ranking (line 106) *)

(** [a.argsort(kind="quicksort")] on an array without NaN: the positions of
    [a], arranged so that the values ascend.  numpy documents no more than
    that for this kind (the order of equal values is left open). *)
Class ArgSort : Type := mkArgSort {
  argsort : list Q -> list nat;
  argsort_perm : forall a, Permutation (argsort a) (seq 0 (length a));
  argsort_sorted : forall a, StronglySorted Qle (take a (argsort a))
}.

Section Ranking.
Context {sorter : ArgSort}.

(** pandas' [nargsort(items, kind, ascending=False, na_position="last")]. *)
Definition nargsort (items : list (option Q)) : list nat :=
  let mask := map isna items in
  let idx := seq 0 (length items) in
  let non_nans := dropna items in
  let non_nan_idx := mask_select (map negb mask) idx in
  let nan_idx := mask_select mask idx in
  let non_nans := rev non_nans in
  let non_nan_idx := rev non_nan_idx in
  let indexer := take non_nan_idx (argsort non_nans) in
  let indexer := rev indexer in
  indexer ++ nan_idx.

(** [frame.sort_values(by=..., ascending=False)]. *)
Definition sort_values {A : Type} (by_col : A -> option Q) (frame : list A) : list A :=
  take frame (nargsort (map by_col frame)).

Definition head {A : Type} (n : nat) (frame : list A) : list A := firstn n frame.

Definition top_n {A : Type} (score : A -> option Q) (n : nat) (frame : list A) : list A :=
  head n (sort_values score frame).

End Ranking.

(** The rows of [df] with their index labels (the RangeIndex of a freshly
    read table); sorting keeps the label of each row. *)
Definition with_index (df : list Row) : list (nat * Row) :=
  combine (seq 0 (length df)) df.

Definition score_of (ir : nat * Row) : option Q := Global_Composite_Score (snd ir).

Definition top_5_outliers {sorter : ArgSort} (df : list Row) : list (nat * Row) :=
  top_n score_of 5 (with_index df).

(** ** Wide to long (lines 116-121) *)

Record Melted : Type := mkMelted {
  id_value : option string;
  variable : string;
  value : option Q
}.

(** [frame.melt(id_vars, value_vars, ...)]: one block per value column, in
    the order of [value_vars]; inside a block one line per row of [frame]. *)
Definition melt {A : Type} (id_var : A -> option string)
    (value_vars : list (string * (A -> option Q))) (frame : list A) : list Melted :=
  flat_map (fun vv => map (fun r => mkMelted (id_var r) (fst vv) (snd vv r)) frame)
           value_vars.

Definition z_score_columns : list (string * (Row -> option Q)) :=
  [("APC_z_score", APC_z_score); ("PDP_z_score", PDP_z_score);
   ("LP_z_score", LP_z_score); ("NNPP_z_score", NNPP_z_score)]%string.

Definition z_df (top : list (nat * Row)) : list Melted :=
  melt PU_Name z_score_columns (map snd top).


(** ** Per-LGA means (line 137) *)

Fixpoint insert_key (k : string) (l : list string) : list string :=
  match l with
  | [] => [k]
  | h :: t => if String.leb k h then k :: h :: t else h :: insert_key k t
  end.

Definition sort_keys (l : list string) : list string := fold_right insert_key [] l.

(** The groups of [groupby(col)]: the distinct present keys ([dropna=True]),
    sorted ([sort=True]). *)
Definition group_keys (col : list (option string)) : list string :=
  sort_keys (dropna (unique col)).

Definition group_scores (g : string) (df : list Row) : list (option Q) :=
  map Global_Composite_Score (filter (fun r => cell_eqb (LGA r) (Some g)) df).

(** The loop of pandas' [group_mean] over the present values of one group,
    in row order: Kahan's compensated summation. *)
Fixpoint kahan (sumx compensation : Q) (vs : list Q) : Q :=
  match vs with
  | [] => sumx
  | val :: rest =>
      let y := float_sub val compensation in
      let t := float_add sumx y in
      kahan t (float_sub (float_sub t sumx) y) rest
  end.

(** [sumx / nobs], NaN for a group without any value. *)
Definition groupby_mean (vs : list Q) : option Q :=
  match vs with
  | [] => None
  | _ => Some (float_div (kahan 0 0 vs) (inject_Z (Z.of_nat (length vs))))
  end.

(** numpy's [round(2)]: times 100, to the nearest integer, over 100. *)
Definition round2 (x : Q) : Q :=
  float_div (inject_Z (rint (float_mul x 100))) 100.

Definition group_mean (g : string) (df : list Row) : option Q :=
  option_map round2 (groupby_mean (dropna (group_scores g df))).

Definition lga_comparison {sorter : ArgSort} (df : list Row) : list (string * option Q) :=
  sort_values snd (map (fun g => (g, group_mean g df)) (group_keys (map LGA df))).

(** ** Historical series (lines 152-161) *)

Module Hist.
Record Row : Type := mkRow {
  Year : Z;
  APC : option Z;
  PDP : option Z;
  LP : option Z;
  NNPP : option Z
}.
End Hist.

Definition column_sum (field : Row -> option Z) (df : list Row) : Z :=
  sval (series_sum (map field df)).

(** The frame as the constructor builds it from the literals and the four
    sums: [None] entries are missing.  A list with a [None] in it becomes a
    float64 column, so the entries of APC, LP and NNPP are converted to
    float64; the PDP list has numbers only and keeps them as they are. *)
Definition historical_frame (apc pdp lp nnpp : Z) : list Hist.Row :=
  [ Hist.mkRow 2011 None (Some 484758%Z) None None;
    Hist.mkRow 2015 (Some (float_of_int 528620)) (Some 303376%Z) None None;
    Hist.mkRow 2019 (Some (float_of_int 365229)) (Some 366690%Z)
                    (Some (float_of_int 360)) (Some (float_of_int 430));
    Hist.mkRow 2023 (Some (float_of_int apc)) (Some pdp)
                    (Some (float_of_int lp)) (Some (float_of_int nnpp)) ].

Definition historical_literal (df : list Row) : list Hist.Row :=
  historical_frame (column_sum APC df) (column_sum PDP df)
                   (column_sum LP df) (column_sum NNPP df).

Definition fill0 (c : option Z) : option Z :=
  match c with None => Some 0%Z | Some z => Some z end.

(** [fillna(0)] on every column. *)
Definition fillna0 (h : list Hist.Row) : list Hist.Row :=
  map (fun r => Hist.mkRow (Hist.Year r) (fill0 (Hist.APC r)) (fill0 (Hist.PDP r))
                           (fill0 (Hist.LP r)) (fill0 (Hist.NNPP r))) h.

Definition historical_election_data (df : list Row) : list Hist.Row :=
  fillna0 (historical_literal df).

Definition year_row (y : Z) (h : list Hist.Row) : option Hist.Row :=
  find (fun r => (Hist.Year r =? y)%Z) h.

(** ** The script as a whole

    The statements of the script run in order over a store of objects: the
    loaded table and the frames the script creates.  A failing statement
    ends the run; what was rendered before it stays rendered. *)

Inductive pyobject : Type :=
| ODataFrame (d : DataFrame)
| ORanking (header : list string) (l : list (nat * Row))
| OLong (l : list Melted)
| OGroup (l : list (string * option Q))
| OHist (l : list Hist.Row).

Inductive kpi_value : Type :=
| KCount (n : nat)
| KInt (z : Z)
| KScalar (s : scalar)
| KPercent (x : float).

(** The data views that reach the page: tiles, map, table and charts.  The
    title, the introduction and the section headers depend on nothing and
    are left out. *)
Inductive view : Type :=
| Metric (label : string) (v : kpi_value)
| FoliumMap (center : Q * Q) (markers : list MarkerT) (heat : list (Q * Q * Q))
| Table (l : list (nat * Row))
| ZScoreChart (l : list Melted)
| LgaChart (l : list (string * option Q))
| HistoryChart (l : list Hist.Row).

(** [fillna(0)] on the other frames, cell by cell.  A text cell receives
    the filler as it is displayed. *)
Definition fill_real (c : option Q) : option Q :=
  match c with None => Some 0%Q | Some q => Some q end.

Definition fill_text (c : option string) : option string :=
  match c with None => Some "0"%string | Some t => Some t end.

Definition fillna_row (r : Row) : Row :=
  mkRow (fill_text (PU_Code r)) (fill_text (PU_Name r)) (fill_text (LGA r))
        (fill_real (Latitude r)) (fill_real (Longitude r))
        (fill0 (Total_Votes r)) (fill0 (Registered_Voters r))
        (fill0 (Accredited_Voters r))
        (fill0 (APC r)) (fill0 (PDP r)) (fill0 (LP r)) (fill0 (NNPP r))
        (fill0 (HDBSCAN_Cluster r)) (fill_real (Accredited_Ratio r))
        (fill_real (Global_Composite_Score r))
        (fill_real (APC_z_score r)) (fill_real (PDP_z_score r))
        (fill_real (LP_z_score r)) (fill_real (NNPP_z_score r))
        (fill_text (color r)).

Definition fillna_object (o : pyobject) : pyobject :=
  match o with
  | ODataFrame d => ODataFrame (mkFrame (columns d) (map fillna_row (rows d)))
  | ORanking header l => ORanking header (map (fun ir => (fst ir, fillna_row (snd ir))) l)
  | OLong l =>
      OLong (map (fun m => mkMelted (fill_text (id_value m)) (variable m)
                                    (fill_real (value m))) l)
  | OGroup l => OGroup (map (fun gm => (fst gm, fill_real (snd gm))) l)
  | OHist h => OHist (fillna0 h)
  end.

Record state : Type := mkState {
  heap : list pyobject;
  rendered : list view
}.

Definition M (A : Type) : Type := state -> result A * state.

Definition ret {A : Type} (a : A) : M A := fun s => (Ok a, s).

Definition raise {A : Type} (e : exn) : M A := fun s => (Raise e, s).

Definition bind {A B : Type} (m : M A) (f : A -> M B) : M B :=
  fun s =>
    match m s with
    | (Ok a, s') => f a s'
    | (Raise e, s') => (Raise e, s')
    end.

Definition lift {A : Type} (r : result A) : M A := fun s => (r, s).

Declare Scope script_scope.
Delimit Scope script_scope with script.
Notation "x <- c1 ;; c2" := (bind c1 (fun x => c2))
  (at level 61, c1 at next level, right associativity) : script_scope.
Notation "c1 ;; c2" := (bind c1 (fun _ => c2))
  (at level 61, right associativity) : script_scope.

(** A new object: it gets the next free reference. *)
Definition alloc (o : pyobject) : M nat :=
  fun s => (Ok (length (heap s)), mkState (heap s ++ [o]) (rendered s)).

Definition load (ref : nat) : M pyobject :=
  fun s =>
    match nth_error (heap s) ref with
    | Some o => (Ok o, s)
    | None => (Raise TypeError, s)
    end.

(** In-place update of the object behind a reference. *)
Definition store (ref : nat) (o : pyobject) : M unit :=
  fun s =>
    if ref <? length (heap s)
    then (Ok tt, mkState (firstn ref (heap s) ++ o :: skipn (S ref) (heap s))
                         (rendered s))
    else (Raise TypeError, s).

Definition render (v : view) : M unit :=
  fun s => (Ok tt, mkState (heap s) (rendered s ++ [v])).

Local Open Scope script_scope.

Definition load_frame (ref : nat) : M DataFrame :=
  o <- load ref ;;
  match o with
  | ODataFrame d => ret d
  | _ => raise TypeError
  end.

(** [df[[c1, ..., cn]]]: the header is checked, then the rows are read. *)
Definition getitems (ref : nat) (cs : list string) : M (list Row) :=
  d <- load_frame ref ;;
  _ <- lift (require_columns (columns d) cs) ;;
  ret (rows d).

Definition getitem (ref : nat) (c : string) : M (list Row) := getitems ref [c].

Definition load_ranking (ref : nat) (cs : list string) : M (list (nat * Row)) :=
  o <- load ref ;;
  match o with
  | ORanking header l => _ <- lift (require_columns header cs) ;; ret l
  | _ => raise TypeError
  end.

Definition load_hist (ref : nat) : M (list Hist.Row) :=
  o <- load ref ;;
  match o with
  | OHist h => ret h
  | _ => raise TypeError
  end.

(** [frame.fillna(0, inplace=True)] works on every frame, the loaded table
    included: the object behind [ref] is overwritten by the frame with its
    missing cells filled. *)
Definition fillna_inplace (ref : nat) : M unit :=
  o <- load ref ;;
  store ref (fillna_object o).

(** [melt] refuses a [value_name] that is already a column of the frame,
    before it looks at [id_vars] and [value_vars]. *)
Definition check_value_name (header : list string) (value_name : string) : result unit :=
  if has_column header value_name
  then Raise (ValueError ("value_name (" ++ value_name ++
                          ") cannot match an element in the DataFrame columns."))
  else Ok tt.

(** The frame handed to [melt], once [melt] has accepted its arguments. *)
Definition melt_input (ref : nat) (value_name : string) (cs : list string)
    : M (list (nat * Row)) :=
  o <- load ref ;;
  match o with
  | ORanking header l =>
      _ <- lift (check_value_name header value_name) ;;
      _ <- lift (require_columns header cs) ;;
      ret l
  | _ => raise TypeError
  end.

Definition shown_columns : list string :=
  ["PU-Name"; "Total_Votes"; "Accredited_Voters"; "Accredited_Ratio";
   "APC_z_score"; "PDP_z_score"; "LP_z_score"; "NNPP_z_score";
   "Global_Composite_Score"]%string.

Section Script.
Context {sorter : ArgSort} {summation : FloatSum}.
Variable df : nat.

(** Lines 44-66. *)
Definition kpi_metrics : M unit :=
  codes <- getitem df "PU-Code" ;;
  votes <- getitem df "Total_Votes" ;;
  registered <- getitem df "Registered_Voters" ;;
  accredited <- getitem df "Accredited_Voters" ;;
  pct <- lift (turnout (total_accredited accredited) (total_registered registered)) ;;
  render (Metric "Total Polling Units" (KCount (total_polling_units codes))) ;;
  render (Metric "Total Votes Cast" (KInt (total_votes votes))) ;;
  render (Metric "Registered Voters" (KScalar (total_registered registered))) ;;
  render (Metric "Accredited Voters" (KScalar (total_accredited accredited))) ;;
  render (Metric "Voter Turnout (%)" (KPercent pct)).

(** Lines 74-98. *)
Definition geographic_map : M unit :=
  lat <- getitem df "Latitude" ;;
  lon <- getitem df "Longitude" ;;
  center <- lift (validate_location (nanmean (map Latitude lat))
                                    (nanmean (map Longitude lon))) ;;
  frame <- load_frame df ;;
  markers <- lift (marker_cluster frame) ;;
  heat <- getitems df ["Latitude"; "Longitude"; "Global_Composite_Score"]%string ;;
  render (FoliumMap center markers (heat_data heat)).

(** Lines 106-130. *)
Definition party_distribution : M unit :=
  scored <- getitem df "Global_Composite_Score" ;;
  frame <- load_frame df ;;
  top <- alloc (ORanking (columns frame) (top_5_outliers scored)) ;;
  shown <- load_ranking top shown_columns ;;
  render (Table shown) ;;
  wide <- melt_input top "Z-Score" ("PU-Name"%string :: map fst z_score_columns) ;;
  long <- alloc (OLong (z_df wide)) ;;
  render (ZScoreChart (z_df wide)).

(** Lines 137-144. *)
Definition neighborhood_comparisons : M unit :=
  grouped <- getitem df "LGA" ;;
  _ <- getitem df "Global_Composite_Score" ;;
  lga <- alloc (OGroup (lga_comparison grouped)) ;;
  render (LgaChart (lga_comparison grouped)).

(** Lines 152-174. *)
Definition historical_trends : M unit :=
  apc <- getitem df "APC" ;;
  pdp <- getitem df "PDP" ;;
  lp <- getitem df "LP" ;;
  nnpp <- getitem df "NNPP" ;;
  h <- alloc (OHist (historical_frame (column_sum APC apc) (column_sum PDP pdp)
                                      (column_sum LP lp) (column_sum NNPP nnpp))) ;;
  fillna_inplace h ;;
  data <- load_hist h ;;
  render (HistoryChart data).

Definition dashboard : M unit :=
  kpi_metrics ;;
  geographic_map ;;
  party_distribution ;;
  neighborhood_comparisons ;;
  historical_trends.

End Script.

(** A rendering pass: the store holds the loaded table and nothing else. *)
Definition run_dashboard {sorter : ArgSort} {summation : FloatSum} (d : DataFrame)
    : result unit * state :=
  dashboard 0 (mkState [ODataFrame d] []).

(** The columns the script reads. *)
Definition required_columns : list string :=
  ["PU-Code"; "Total_Votes"; "Registered_Voters"; "Accredited_Voters";
   "Latitude"; "Longitude"; "PU-Name"; "HDBSCAN_Cluster"; "Accredited_Ratio";
   "Global_Composite_Score"; "color"; "APC_z_score"; "PDP_z_score";
   "LP_z_score"; "NNPP_z_score"; "LGA"; "APC"; "PDP"; "LP"; "NNPP"]%string.

Local Close Scope script_scope.

(** ** The order of the ranking

    Descending by score, a missing score after every present one. *)
Definition score_ge (a b : option Q) : Prop :=
  match a, b with
  | _, None => True
  | None, Some _ => False
  | Some x, Some y => (y <= x)%Q
  end.

Definition ranked_before {A : Type} (score : A -> option Q) (a b : A) : Prop :=
  score_ge (score a) (score b).

Definition same_score (a b : option Q) : Prop :=
  match a, b with
  | Some x, Some y => (x == y)%Q
  | None, None => True
  | _, _ => False
  end.

Definition present {A : Type} (score : A -> option Q) (a : A) : bool :=
  notna (score a).

Definition missing {A : Type} (score : A -> option Q) (a : A) : bool :=
  isna (score a).

(** The rows with a score as the sorting routine arranged them, best
    first. *)
Definition ranked_present {sorter : ArgSort} {A : Type}
    (score : A -> option Q) (frame : list A) : list A :=
  rev (take (rev (filter (present score) frame))
            (argsort (rev (dropna (map score frame))))).

(** Rows with equal scores come out of the ranking in row order. *)
Definition ties_in_row_order (out : list (nat * Row)) : Prop :=
  forall p q i j r r',
    p < q ->
    nth_error out p = Some (i, r) ->
    nth_error out q = Some (j, r') ->
    same_score (Global_Composite_Score r) (Global_Composite_Score r') ->
    i < j.

(** ** Two sorting routines

    Insertion by position, with the test that decides whether a new position
    goes in front of one already placed: with [Qle_bool] equal values keep
    their order. *)
Section InsertionArgsort.
Variable goes_before : Q -> Q -> bool.
Variable a : list Q.

Definition value_at (i : nat) : Q := nth i a 0%Q.

Fixpoint insert_pos (i : nat) (l : list nat) : list nat :=
  match l with
  | [] => [i]
  | j :: t =>
      if goes_before (value_at i) (value_at j) then i :: j :: t
      else j :: insert_pos i t
  end.

Definition insertion_argsort : list nat :=
  fold_right insert_pos [] (seq 0 (length a)).

End InsertionArgsort.

(** numpy's [npy_aquicksort] (npysort/quicksort.cpp), the routine behind
    [argsort(kind="quicksort")] where no vectorised kernel replaces it.  It
    sorts the array of positions [tosort] by the keys [v[tosort[i]]]: ranges
    of more than 17 positions are partitioned around the median of three and
    the larger part is pushed on a stack, shorter ranges are sorted by
    insertion, and a range reached after too many partitions is sorted by
    [aheapsort].  Pointers into [tosort] are offsets here; each loop of the C
    code is a function with a bound on its iterations. *)
Section NpyQuicksort.
Variable v : list Q.

Definition npy_key (i : nat) : Q := nth i v 0%Q.

Definition npy_less (x y : Q) : bool := negb (Qle_bool y x).

Definition peek (tosort : list nat) (p : nat) : nat := nth p tosort 0.

Fixpoint poke (tosort : list nat) (p x : nat) : list nat :=
  match tosort, p with
  | [], _ => []
  | _ :: t, 0 => x :: t
  | h :: t, S p' => h :: poke t p' x
  end.

Definition intp_swap (tosort : list nat) (p q : nat) : list nat :=
  poke (poke tosort p (peek tosort q)) q (peek tosort p).

Definition median_of_three (tosort : list nat) (pl pm pr : nat) : list nat :=
  let t1 := if npy_less (npy_key (peek tosort pm)) (npy_key (peek tosort pl))
            then intp_swap tosort pm pl else tosort in
  let t2 := if npy_less (npy_key (peek t1 pr)) (npy_key (peek t1 pm))
            then intp_swap t1 pr pm else t1 in
  if npy_less (npy_key (peek t2 pm)) (npy_key (peek t2 pl))
  then intp_swap t2 pm pl else t2.

(** [do ++pi; while (less(v[*pi], vp));] *)
Fixpoint scan_up (fuel : nat) (tosort : list nat) (vp : Q) (pi : nat) : nat :=
  match fuel with
  | 0 => S pi
  | S f =>
      if npy_less (npy_key (peek tosort (S pi))) vp
      then scan_up f tosort vp (S pi) else S pi
  end.

(** [do --pj; while (less(vp, v[*pj]));] *)
Fixpoint scan_down (fuel : nat) (tosort : list nat) (vp : Q) (pj : nat) : nat :=
  match fuel with
  | 0 => pj - 1
  | S f =>
      if npy_less vp (npy_key (peek tosort (pj - 1)))
      then scan_down f tosort vp (pj - 1) else pj - 1
  end.

Fixpoint partition_loop (fuel : nat) (tosort : list nat) (vp : Q) (pi pj : nat)
    : list nat * nat :=
  match fuel with
  | 0 => (tosort, pi)
  | S f =>
      let pi' := scan_up (length tosort) tosort vp pi in
      let pj' := scan_down (length tosort) tosort vp pj in
      if pj' <=? pi' then (tosort, pi')
      else partition_loop f (intp_swap tosort pi' pj') vp pi' pj'
  end.

(** One partition of the range [pl .. pr]: the positions and the final
    place [pi] of the pivot. *)
Definition partition (tosort : list nat) (pl pr : nat) : list nat * nat :=
  let pm := pl + Nat.div2 (pr - pl) in
  let t1 := median_of_three tosort pl pm pr in
  let vp := npy_key (peek t1 pm) in
  let t2 := intp_swap t1 pm (pr - 1) in
  let '(t3, pi) := partition_loop (length t2) t2 vp pl (pr - 1) in
  (intp_swap t3 pi (pr - 1), pi).

(** [while (pj > pl && less(vp, v[*pk])) *pj-- = *pk--;] *)
Fixpoint shift_right (fuel : nat) (tosort : list nat) (vp : Q) (pl pj : nat)
    : list nat * nat :=
  match fuel with
  | 0 => (tosort, pj)
  | S f =>
      if (pl <? pj) && npy_less vp (npy_key (peek tosort (pj - 1)))
      then shift_right f (poke tosort pj (peek tosort (pj - 1))) vp pl (pj - 1)
      else (tosort, pj)
  end.

(** [for (pi = pl + 1; pi <= pr; ++pi)]: insertion sort of [pl .. pr]. *)
Fixpoint insertion_range (fuel : nat) (tosort : list nat) (pl pi pr : nat) : list nat :=
  match fuel with
  | 0 => tosort
  | S f =>
      if pi <=? pr then
        let vi := peek tosort pi in
        let '(t, pj) := shift_right (length tosort) tosort (npy_key vi) pl pi in
        insertion_range f (poke t pj vi) pl (S pi) pr
      else tosort
  end.

(** [aheapsort] on the [n] positions from [pl]; [a[k]] is [tosort[pl + k - 1]]. *)
Definition slot (pl k : nat) : nat := pl + k - 1.

Fixpoint sift (fuel : nat) (tosort : list nat) (pl n tmp i j : nat) : list nat :=
  match fuel with
  | 0 => poke tosort (slot pl i) tmp
  | S f =>
      if j <=? n then
        let j' := if (j <? n) && npy_less (npy_key (peek tosort (slot pl j)))
                                          (npy_key (peek tosort (slot pl (S j))))
                  then S j else j in
        if npy_less (npy_key tmp) (npy_key (peek tosort (slot pl j')))
        then sift f (poke tosort (slot pl i) (peek tosort (slot pl j'))) pl n tmp j' (j' + j')
        else poke tosort (slot pl i) tmp
      else poke tosort (slot pl i) tmp
  end.

Fixpoint heapify (l : nat) (tosort : list nat) (pl n : nat) : list nat :=
  match l with
  | 0 => tosort
  | S l' => heapify l' (sift n tosort pl n (peek tosort (slot pl l)) l (l + l)) pl n
  end.

Fixpoint heap_extract (n : nat) (tosort : list nat) (pl : nat) : list nat :=
  match n with
  | 0 => tosort
  | S n' =>
      if 1 <? n then
        let tmp := peek tosort (slot pl n) in
        let t := poke tosort (slot pl n) (peek tosort (slot pl 1)) in
        heap_extract n' (sift n t pl n' tmp 1 2) pl
      else tosort
  end.

Definition aheapsort (tosort : list nat) (pl n : nat) : list nat :=
  heap_extract n (heapify (Nat.div2 n) tosort pl n) pl.

(** [while ((pr - pl) > SMALL_QUICKSORT)], with [SMALL_QUICKSORT] 16: the
    smaller part is kept, the larger one and the depth left go on the
    stack. *)
Fixpoint partition_while (fuel : nat) (tosort : list nat) (pl pr : nat) (cdepth : Z)
    (stack : list (nat * nat * Z)) : list nat * nat * nat * list (nat * nat * Z) :=
  match fuel with
  | 0 => (tosort, pl, pr, stack)
  | S f =>
      if 16 <? pr - pl then
        let '(t, pi) := partition tosort pl pr in
        let depth := (cdepth - 1)%Z in
        if pi - pl <? pr - pi
        then partition_while f t pl (pi - 1) depth ((pi + 1, pr, depth) :: stack)
        else partition_while f t (pi + 1) pr depth ((pl, pi - 1, depth) :: stack)
      else (tosort, pl, pr, stack)
  end.

(** The outer [while (1)]: one range, then the next one from the stack. *)
Fixpoint quicksort_loop (fuel : nat) (tosort : list nat) (pl pr : nat) (cdepth : Z)
    (stack : list (nat * nat * Z)) : list nat :=
  match fuel with
  | 0 => tosort
  | S f =>
      let '(t, rest) :=
        if (cdepth <? 0)%Z then (aheapsort tosort pl (pr - pl + 1), stack)
        else
          let '(t1, pl', pr', stack') :=
            partition_while (length tosort) tosort pl pr cdepth stack in
          (insertion_range (length t1) t1 pl' (S pl') pr', stack') in
      match rest with
      | [] => t
      | (pl', pr', depth) :: rest' => quicksort_loop f t pl' pr' depth rest'
      end
  end.

Definition npy_aquicksort : list nat :=
  let num := length v in
  quicksort_loop (S num) (seq 0 num) 0 (num - 1) (2 * Z.log2 (Z.of_nat num)) [].

End NpyQuicksort.

(** What [argsort] promises, decided on an outcome [r] for the keys [a]. *)
Fixpoint nodupb (l : list nat) : bool :=
  match l with
  | [] => true
  | x :: t => negb (existsb (Nat.eqb x) t) && nodupb t
  end.

Fixpoint ascending (l : list Q) : bool :=
  match l with
  | [] => true
  | x :: t =>
      match t with
      | [] => true
      | y :: _ => Qle_bool x y && ascending t
      end
  end.

Definition is_argsort (a : list Q) (r : list nat) : bool :=
  (length r =? length a) && forallb (fun i => i <? length a) r
  && nodupb r && ascending (map (value_at a) r).

(** [argsort(kind="quicksort")]: the outcome of numpy's routine.  That this
    outcome arranges all positions in ascending order of their keys is
    checked on the outcome itself; the insertion sort stands in should the
    check ever fail. *)
Definition numpy_positions (a : list Q) : list nat :=
  let r := npy_aquicksort a in
  if is_argsort a r then r else insertion_argsort Qle_bool a.

(** ** Reasoning about the script

    [triple P m Q E]: from a store that satisfies [P], the statement [m]
    either returns [a] in a store that satisfies [Q a], or raises [e] in a
    store that satisfies [E e]. *)
Definition triple {A : Type} (P : state -> Prop) (m : M A)
    (Q : A -> state -> Prop) (E : exn -> state -> Prop) : Prop :=
  forall s, P s ->
    match m s with
    | (Ok a, s') => Q a s'
    | (Raise e, s') => E e s'
    end.

(** The objects of [h0] are still there, unchanged. *)
Definition extends (h0 : list pyobject) (s : state) : Prop :=
  exists rest, heap s = h0 ++ rest.

(** An exception that a missing column explains: a [KeyError] names a
    required column that the header lacks. *)
Definition names_missing_column (d : DataFrame) (e : exn) : Prop :=
  forall c, e = KeyError c ->
            In c required_columns /\ has_column (columns d) c = false.

(** ** Sample tables *)

Definition all_columns : list string := required_columns.

(** A row with every cell present. *)
Definition full_row (code : string) (lga : string) (score : Q) : Row :=
  mkRow (Some code) (Some code) (Some lga) (Some 6.5%Q) (Some 3.4%Q)
        (Some 100%Z) (Some 200%Z) (Some 120%Z)
        (Some 40%Z) (Some 30%Z) (Some 20%Z) (Some 10%Z)
        (Some 1%Z) (Some 0.6%Q) (Some score)
        (Some 1.5%Q) (Some (-0.5)%Q) (Some 0.25%Q) None
        (Some "red"%string).

(** The same polling unit, its latitude not recorded. *)
Definition row_without_latitude (code : string) (lga : string) (score : Q) : Row :=
  let r := full_row code lga score in
  mkRow (PU_Code r) (PU_Name r) (LGA r) None (Longitude r)
        (Total_Votes r) (Registered_Voters r) (Accredited_Voters r)
        (APC r) (PDP r) (LP r) (NNPP r)
        (HDBSCAN_Cluster r) (Accredited_Ratio r) (Global_Composite_Score r)
        (APC_z_score r) (PDP_z_score r) (LP_z_score r) (NNPP_z_score r)
        (color r).

Definition sample_frame : DataFrame :=
  mkFrame all_columns
          [full_row "PU-1" "Ikeja" 2.5; full_row "PU-2" "Ikeja" 4; full_row "PU-3" "Epe" 1].

(** The sample table without its [LGA] column. *)
Definition frame_without_lga : DataFrame :=
  mkFrame (filter (fun c => negb (String.eqb c "LGA")) all_columns)
          (rows sample_frame).

(** The sample table with one latitude missing. *)
Definition frame_with_gap : DataFrame :=
  mkFrame all_columns
          [full_row "PU-1" "Ikeja" 2.5; row_without_latitude "PU-2" "Ikeja" 4].

(** The rows of two polling units that tie on the composite score, and a row
    without any value. *)
Definition blank_row : Row :=
  mkRow None None None None None None None None None None
        None None None None None None None None None None.

Definition scored_row (code : string) (score : Q) : Row :=
  mkRow (Some code) (Some code) None None None None None None None None
        None None None None (Some score) None None None None None.



(** Eighteen polling units with the same score. *)
Definition tied_rows : list Row := repeat (scored_row "T" 1) 18.

(** The sample table with one more column, named like the value column of
    the long table. *)
Definition frame_with_z_score : DataFrame :=
  mkFrame (all_columns ++ ["Z-Score"%string]) (rows sample_frame).


(** A polling unit without registered voters. *)
Definition unregistered_row : Row :=
  mkRow (Some "PU-0"%string) (Some "PU-0"%string) None None None
        (Some 0%Z) (Some 0%Z) (Some 0%Z) None None None None
        None None None None None None None None.

(** ** Further notions used by the properties of the script *)

(** Line 74: the centre handed to [folium.Map]. *)
Definition map_center {summation : FloatSum} (df : list Row) : result (Q * Q) :=
  validate_location (nanmean (map Latitude df)) (nanmean (map Longitude df)).

Definition has_coordinates (r : Row) : bool :=
  notna (Latitude r) && notna (Longitude r).

(** The marker of a row, as the loop builds it. *)
Definition describes (r : Row) (m : MarkerT) : Prop :=
  Latitude r = Some (fst (location m)) /\
  Longitude r = Some (snd (location m)) /\
  popup m = popup_text r /\
  icon_color m = color r.

(** ** What a complete run needs and leaves behind *)

(** The table has every column the script reads and no column named like
    the value column of the long table, at least one row, and both
    coordinates in every row. *)
Definition ready (d : DataFrame) : Prop :=
  Forall (fun c => has_column (columns d) c = true) required_columns
  /\ has_column (columns d) "Z-Score" = false
  /\ rows d <> []
  /\ Forall (fun r => has_coordinates r = true) (rows d).

(** The exceptions a run can end with. *)
Definition expected_exception (d : DataFrame) (e : exn) : Prop :=
  e = ZeroDivisionError
  \/ e = ValueError "Location values cannot contain NaNs."
  \/ (e = ValueError "value_name (Z-Score) cannot match an element in the DataFrame columns."
      /\ has_column (columns d) "Z-Score" = true)
  \/ exists c, e = KeyError c /\ In c required_columns /\ has_column (columns d) c = false.

(** The place of a view on the page: the label of a tile, the title of a
    table or chart. *)
Definition view_title (v : view) : string :=
  match v with
  | Metric label _ => label
  | FoliumMap _ _ _ => "Geographic Clusters and Outliers Map"
  | Table _ => "Top 5 Outlier Polling Units"
  | ZScoreChart _ => "Party-Specific Z-Scores for Top 5 Outliers"
  | LgaChart _ => "Average Global Composite Score by LGA"
  | HistoryChart _ => "Historical Election Results (2011 - 2023)"
  end.

(** The ten views of the page, top to bottom. *)
Definition page_titles : list string :=
  [ "Total Polling Units"; "Total Votes Cast"; "Registered Voters";
    "Accredited Voters"; "Voter Turnout (%)";
    "Geographic Clusters and Outliers Map";
    "Top 5 Outlier Polling Units";
    "Party-Specific Z-Scores for Top 5 Outliers";
    "Average Global Composite Score by LGA";
    "Historical Election Results (2011 - 2023)" ]%string.

(** The columns read before the first tile is rendered, and those read
    between the tiles and the map. *)
Definition kpi_columns : list string :=
  ["PU-Code"; "Total_Votes"; "Registered_Voters"; "Accredited_Voters"]%string.

Definition map_columns : list string :=
  ("Latitude" :: "Longitude" :: marker_columns)%string.

(** The number of views on the page when the first statement that reads
    column [c] starts: the KPI columns are read before anything is rendered,
    the map columns after the five tiles, the columns of the ranking table
    after the map, [LGA] after the ranking table and its chart, the party
    columns after the LGA chart. *)
Definition views_before (c : string) : nat :=
  if existsb (String.eqb c) kpi_columns then 0
  else if existsb (String.eqb c) map_columns then 5
  else if existsb (String.eqb c) shown_columns then 6
  else if String.eqb c "LGA" then 8
  else 9.

(** The numbers of views at which a run can end. *)
Definition stopping_points : list nat := [0; 5; 6; 7; 8; 9; 10].

(** The views on the page are a head of the ten views, cut where a stage
    can stop. *)
Definition well_staged (vs : list view) : Prop :=
  In (length vs) stopping_points
  /\ map view_title vs = firstn (length vs) page_titles.

(** A run that raised [e] with the views [vs] on the page stopped where the
    script reads: a [KeyError] names a required column that the table
    lacks, it comes from the first statement that reads that column, and no
    statement that reads a missing column was passed. *)
Definition stops_where_it_reads (d : DataFrame) (e : exn) (vs : list view) : Prop :=
  names_missing_column d e
  /\ (forall c, In c required_columns -> has_column (columns d) c = false ->
                length vs <= views_before c)
  /\ (forall c, e = KeyError c -> length vs = views_before c).

Definition outcome_as_read (d : DataFrame) (out : result unit * state) : Prop :=
  well_staged (rendered (snd out))
  /\ match fst out with
     | Ok _ => Forall (fun c => has_column (columns d) c = true) required_columns
     | Raise e => stops_where_it_reads d e (rendered (snd out))
     end.



(** The views of a complete run, and the objects it leaves in the store. *)
Definition tiles (df : list Row) (pct : float) : list view :=
  [ Metric "Total Polling Units" (KCount (total_polling_units df));
    Metric "Total Votes Cast" (KInt (total_votes df));
    Metric "Registered Voters" (KScalar (total_registered df));
    Metric "Accredited Voters" (KScalar (total_accredited df));
    Metric "Voter Turnout (%)" (KPercent pct) ]%string.

Definition page {sorter : ArgSort} (d : DataFrame) (pct : float) (center : Q * Q)
    (ms : list MarkerT) : list view :=
  tiles (rows d) pct ++
  [ FoliumMap center ms (heat_data (rows d));
    Table (top_5_outliers (rows d));
    ZScoreChart (z_df (top_5_outliers (rows d)));
    LgaChart (lga_comparison (rows d));
    HistoryChart (historical_election_data (rows d)) ].

Definition final_store {sorter : ArgSort} (d : DataFrame) : list pyobject :=
  [ ODataFrame d;
    ORanking (columns d) (top_5_outliers (rows d));
    OLong (z_df (top_5_outliers (rows d)));
    OGroup (lga_comparison (rows d));
    OHist (historical_election_data (rows d)) ].

(** A row of the historical frame without missing entry. *)
Definition no_gap (r : Hist.Row) : Prop :=
  Hist.APC r <> None /\ Hist.PDP r <> None /\ Hist.LP r <> None /\ Hist.NNPP r <> None.

(** * Properties *)

(** ** Indexing lemmas *)

Section Take.
Context {A : Type}.
Implicit Types (l : list A) (idx : list nat).

Lemma take_app l idx1 idx2 : take l (idx1 ++ idx2) = take l idx1 ++ take l idx2.
Proof. unfold take. apply flat_map_app. Qed.

Lemma take_cons l i idx :
  take l (i :: idx) = match nth_error l i with Some x => [x] | None => [] end ++ take l idx.
Proof. reflexivity. Qed.

Lemma take_rev l idx : take l (rev idx) = rev (take l idx).
Proof.
  induction idx as [|i idx IH]; [reflexivity|].
  simpl rev. rewrite take_app, IH, take_cons, rev_app_distr.
  f_equal. simpl. rewrite app_nil_r.
  now destruct (nth_error l i).
Qed.

Lemma take_perm l idx1 idx2 :
  Permutation idx1 idx2 -> Permutation (take l idx1) (take l idx2).
Proof.
  induction 1 as [|i ? ? ? IH|i j ?|? ? ? ? IH1 ? IH2].
  - constructor.
  - rewrite !take_cons. now apply Permutation_app_head.
  - rewrite !take_cons, !app_assoc.
    apply Permutation_app_tail, Permutation_app_comm.
  - now transitivity (take l l').
Qed.

Lemma take_seq_shift (p l : list A) :
  take (p ++ l) (seq (length p) (length l)) = l.
Proof.
  revert p. induction l as [|x l IH]; intro p; [reflexivity|].
  simpl length. simpl seq. rewrite take_cons.
  rewrite nth_error_app2 by lia. rewrite Nat.sub_diag. simpl.
  f_equal.
  specialize (IH (p ++ [x])).
  rewrite <- app_assoc, length_app in IH. simpl in IH.
  now rewrite Nat.add_1_r in IH.
Qed.

Lemma take_seq l : take l (seq 0 (length l)) = l.
Proof. exact (take_seq_shift [] l). Qed.

Lemma take_mask_shift (p l : list A) (m : list bool) :
  take (p ++ l) (mask_select m (seq (length p) (length l))) = mask_select m l.
Proof.
  revert p m. induction l as [|x l IH]; intros p m.
  - destruct m as [|[] m]; reflexivity.
  - destruct m as [|b m]; [reflexivity|].
    simpl length. simpl seq.
    specialize (IH (p ++ [x]) m).
    rewrite <- app_assoc, length_app in IH. simpl in IH.
    rewrite Nat.add_1_r in IH.
    destruct b; simpl mask_select.
    + rewrite take_cons, nth_error_app2 by lia.
      rewrite Nat.sub_diag. simpl. now f_equal.
    + exact IH.
Qed.

Lemma take_mask l (m : list bool) :
  take l (mask_select m (seq 0 (length l))) = mask_select m l.
Proof. exact (take_mask_shift [] l m). Qed.

Lemma nth_error_take l idx j :
  Forall (fun i => i < length l) idx ->
  nth_error (take l idx) j =
  match nth_error idx j with Some i => nth_error l i | None => None end.
Proof.
  intros Hr. revert j. induction Hr as [|i idx Hi Hr IH]; intro j.
  - now destruct j.
  - rewrite take_cons.
    destruct (nth_error l i) as [x|] eqn:E.
    + destruct j as [|j]; simpl; [now rewrite E | apply IH].
    + apply nth_error_None in E. lia.
Qed.

End Take.

Lemma take_take {A : Type} (l : list A) (idx js : list nat) :
  Forall (fun i => i < length l) idx ->
  take l (take idx js) = take (take l idx) js.
Proof.
  intros Hr. induction js as [|j js IH]; [reflexivity|].
  rewrite (take_cons idx), (take_cons (take l idx)), take_app, IH. f_equal.
  rewrite nth_error_take by assumption.
  destruct (nth_error idx j) as [i|]; [|reflexivity].
  rewrite take_cons. simpl. now rewrite app_nil_r.
Qed.

Lemma take_map {A B : Type} (f : A -> B) (l : list A) (idx : list nat) :
  take (map f l) idx = map f (take l idx).
Proof.
  induction idx as [|i idx IH]; [reflexivity|].
  rewrite !take_cons, map_app, IH. f_equal.
  rewrite nth_error_map. now destruct (nth_error l i).
Qed.

Lemma mask_select_in_range (m : list bool) (a n : nat) :
  Forall (fun i => i < a + n) (mask_select m (seq a n)).
Proof.
  revert a m. induction n as [|n IH]; intros a m.
  - destruct m as [|[] m]; constructor.
  - destruct m as [|b m]; [constructor|].
    simpl seq. specialize (IH (S a) m).
    rewrite Nat.add_succ_comm in IH.
    destruct b; simpl; [constructor; [lia|]|]; exact IH.
Qed.

Lemma mask_select_filter {A : Type} (f : A -> bool) (l : list A) :
  mask_select (map f l) l = filter f l.
Proof.
  induction l as [|x l IH]; [reflexivity|].
  simpl. rewrite IH. now destruct (f x).
Qed.

Lemma mask_select_split {A : Type} (m : list bool) (l : list A) :
  length m = length l ->
  Permutation (mask_select (map negb m) l ++ mask_select m l) l.
Proof.
  revert l. induction m as [|b m IH]; intros [|x l] Hlen; try discriminate.
  - constructor.
  - injection Hlen as Hlen. specialize (IH l Hlen).
    destruct b; simpl.
    + symmetry. apply Permutation_cons_app. now symmetry.
    + now constructor.
Qed.

(** ** Sorted lists *)

Lemma score_ge_refl a : score_ge a a.
Proof. destruct a; simpl; [apply Qle_refl | exact I]. Qed.

Lemma score_ge_total a b : score_ge a b \/ score_ge b a.
Proof.
  destruct a as [x|], b as [y|]; simpl; auto.
  destruct (Qlt_le_dec x y) as [H|H]; [right; now apply Qlt_le_weak | now left].
Qed.

Lemma score_ge_trans a b c : score_ge a b -> score_ge b c -> score_ge a c.
Proof.
  destruct a as [x|], b as [y|], c as [z|]; simpl; try tauto.
  intros H1 H2. now apply Qle_trans with y.
Qed.

Lemma score_ge_antisym a b : score_ge a b -> score_ge b a -> same_score a b.
Proof.
  destruct a as [x|], b as [y|]; simpl; try tauto.
  intros H1 H2. now apply Qle_antisym.
Qed.

Section Sorted.
Context {A : Type}.
Implicit Type R : A -> A -> Prop.

Lemma StronglySorted_app_intro R (l1 l2 : list A) :
  StronglySorted R l1 -> StronglySorted R l2 ->
  (forall x y, In x l1 -> In y l2 -> R x y) ->
  StronglySorted R (l1 ++ l2).
Proof.
  induction 1 as [|x l1 Hs IH Hx]; intros H2 Hc; [exact H2|].
  simpl. constructor.
  - apply IH; [exact H2|]. intros a b Ha Hb. apply Hc; [now right | exact Hb].
  - apply Forall_app. split; [exact Hx|].
    apply Forall_forall. intros b Hb. apply Hc; [now left | exact Hb].
Qed.

Lemma StronglySorted_app_cross R (l1 l2 : list A) :
  StronglySorted R (l1 ++ l2) ->
  forall x y, In x l1 -> In y l2 -> R x y.
Proof.
  induction l1 as [|a l1 IH]; intros Hs x y Hx Hy; [contradiction|].
  simpl in Hs. inversion Hs as [|? ? Hs' Ha]; subst.
  destruct Hx as [->|Hx].
  - rewrite Forall_forall in Ha. apply Ha, in_or_app. now right.
  - now apply IH.
Qed.

Lemma StronglySorted_app_l R (l1 l2 : list A) :
  StronglySorted R (l1 ++ l2) -> StronglySorted R l1.
Proof.
  induction l1 as [|a l1 IH]; intros Hs; [constructor|].
  simpl in Hs. inversion Hs as [|? ? Hs' Ha]; subst.
  constructor; [now apply IH|].
  apply Forall_app in Ha. tauto.
Qed.

Lemma StronglySorted_rev R (l : list A) :
  StronglySorted R l -> StronglySorted (fun a b => R b a) (rev l).
Proof.
  induction 1 as [|x l Hs IH Hx]; [constructor|].
  simpl. apply StronglySorted_app_intro.
  - exact IH.
  - repeat constructor.
  - intros a b Ha [<-|[]]. rewrite Forall_forall in Hx.
    apply Hx. now apply in_rev.
Qed.

End Sorted.

Lemma StronglySorted_map {A B : Type} (R : B -> B -> Prop) (f : A -> B) (l : list A) :
  StronglySorted R (map f l) -> StronglySorted (fun a b => R (f a) (f b)) l.
Proof.
  induction l as [|x l IH]; intros Hs; [constructor|].
  simpl in Hs. inversion Hs as [|? ? Hs' Hx]; subst.
  constructor; [now apply IH|].
  rewrite Forall_map in Hx. exact Hx.
Qed.

(** ** The indexer *)

Lemma dropna_mask_length {A B : Type} (items : list (option A)) (l : list B) :
  length l = length items ->
  length (dropna items) = length (mask_select (map negb (map isna items)) l).
Proof.
  revert l. induction items as [|[v|] items IH]; intros [|x l] Hlen;
    try discriminate; simpl; [reflexivity| |];
    injection Hlen as Hlen; now rewrite (IH l Hlen).
Qed.

(** The indexer of a sort is a rearrangement of the positions of the
    frame. *)
Lemma nargsort_perm {sorter : ArgSort} (items : list (option Q)) :
  Permutation (nargsort items) (seq 0 (length items)).
Proof.
  unfold nargsort.
  set (idx := seq 0 (length items)).
  set (mask := map isna items).
  apply Permutation_trans
    with (mask_select (map negb mask) idx ++ mask_select mask idx);
    [|apply mask_select_split; unfold mask, idx; now rewrite length_map, length_seq].
  apply Permutation_app_tail.
  set (positions := rev (mask_select (map negb mask) idx)).
  apply Permutation_trans with positions;
    [|unfold positions; symmetry; apply Permutation_rev].
  apply Permutation_trans with (take positions (argsort (rev (dropna items))));
    [symmetry; apply Permutation_rev|].
  apply Permutation_trans with (take positions (seq 0 (length positions)));
    [|now rewrite take_seq].
  apply take_perm.
  replace (length positions) with (length (rev (dropna items))).
  - apply argsort_perm.
  - unfold positions. rewrite !length_rev. apply dropna_mask_length.
    unfold idx. apply length_seq.
Qed.

(** ** The sorted frame *)

Section SortValues.
Context {sorter : ArgSort} {A : Type}.
Variable score : A -> option Q.

Lemma present_values (frame : list A) :
  map score (filter (present score) frame) = map Some (dropna (map score frame)).
Proof.
  induction frame as [|x frame IH]; [reflexivity|].
  unfold present, notna in *. simpl.
  destruct (score x) as [q|] eqn:E; simpl; [rewrite E|]; now rewrite IH.
Qed.

Lemma sort_values_split (frame : list A) :
  sort_values score frame = ranked_present score frame ++ filter (missing score) frame.
Proof.
  unfold sort_values, nargsort, ranked_present.
  rewrite take_app, take_rev, length_map. f_equal.
  - f_equal. rewrite take_take.
    + f_equal. rewrite take_rev, take_mask, !map_map.
      now rewrite mask_select_filter.
    + apply Forall_rev. exact (mask_select_in_range _ 0 (length frame)).
  - rewrite take_mask, map_map. apply mask_select_filter.
Qed.

Lemma ranked_present_scores (frame : list A) :
  map score (ranked_present score frame) =
  map Some (rev (take (rev (dropna (map score frame)))
                      (argsort (rev (dropna (map score frame)))))).
Proof.
  unfold ranked_present.
  rewrite map_rev, <- take_map, map_rev, present_values.
  now rewrite <- map_rev, take_map, map_rev.
Qed.

Lemma ranked_present_perm (frame : list A) :
  Permutation (ranked_present score frame) (filter (present score) frame).
Proof.
  unfold ranked_present.
  rewrite <- Permutation_rev.
  transitivity (rev (filter (present score) frame)); [|symmetry; apply Permutation_rev].
  rewrite <- (take_seq (rev (filter (present score) frame))) at 2.
  apply take_perm.
  assert (Hlen : length (rev (filter (present score) frame)) =
                 length (rev (dropna (map score frame)))).
  { rewrite !length_rev, <- (length_map score), present_values.
    apply length_map. }
  rewrite Hlen. apply argsort_perm.
Qed.

Lemma ranked_present_sorted (frame : list A) :
  StronglySorted (ranked_before score) (ranked_present score frame).
Proof.
  unfold ranked_before. apply StronglySorted_map.
  rewrite ranked_present_scores.
  set (qs := rev (dropna (map score frame))).
  pose proof (StronglySorted_rev _ _ (argsort_sorted qs)) as Hs.
  induction Hs as [|x l Hs IH Hx]; simpl; constructor; [exact IH|].
  rewrite Forall_map. exact Hx.
Qed.

Lemma ranked_present_all (frame : list A) :
  Forall (fun a => present score a = true) (ranked_present score frame).
Proof.
  apply Forall_forall. intros a Ha.
  apply (Permutation_in _ (ranked_present_perm frame)) in Ha.
  now apply filter_In in Ha.
Qed.

Lemma sort_values_perm (frame : list A) :
  Permutation (sort_values score frame) frame.
Proof.
  rewrite sort_values_split, ranked_present_perm.
  clear. induction frame as [|x frame IH]; [constructor|].
  unfold present, missing, notna in *. simpl.
  destruct (isna (score x)); simpl.
  - symmetry. apply Permutation_cons_app. now symmetry.
  - now constructor.
Qed.

Lemma filter_missing_sorted (frame : list A) :
  StronglySorted (ranked_before score) (filter (missing score) frame).
Proof.
  induction frame as [|x frame IH]; [constructor|].
  simpl. destruct (missing score x) eqn:E; [|exact IH].
  constructor; [exact IH|].
  apply Forall_forall. intros y Hy. apply filter_In in Hy.
  destruct Hy as [_ Hy]. unfold ranked_before, missing in *.
  destruct (score y); [discriminate|]. now destruct (score x).
Qed.

Lemma sort_values_sorted (frame : list A) :
  StronglySorted (ranked_before score) (sort_values score frame).
Proof.
  rewrite sort_values_split.
  apply StronglySorted_app_intro.
  - apply ranked_present_sorted.
  - apply filter_missing_sorted.
  - intros x y _ Hy. apply filter_In in Hy. destruct Hy as [_ Hy].
    unfold ranked_before, missing in *.
    destruct (score y); [discriminate|]. now destruct (score x).
Qed.

End SortValues.

(** ** The two sorting routines meet the interface *)

Section InsertionArgsortFacts.
Variable goes_before : Q -> Q -> bool.
Hypothesis before_le : forall x y, goes_before x y = true -> (x <= y)%Q.
Hypothesis after_le : forall x y, goes_before x y = false -> (y <= x)%Q.
Variable a : list Q.

Let le_at (i j : nat) : Prop := (value_at a i <= value_at a j)%Q.

Lemma insert_pos_perm i l : Permutation (insert_pos goes_before a i l) (i :: l).
Proof.
  induction l as [|j l IH]; simpl; [reflexivity|].
  destruct (goes_before _ _); [reflexivity|].
  rewrite IH. apply perm_swap.
Qed.

Lemma insert_pos_sorted i l :
  StronglySorted le_at l -> StronglySorted le_at (insert_pos goes_before a i l).
Proof.
  induction 1 as [|j l Hs IH Hj]; simpl; [repeat constructor|].
  destruct (goes_before _ _) eqn:E.
  - apply before_le in E.
    constructor; [now constructor|].
    constructor; [exact E|].
    eapply Forall_impl; [|exact Hj].
    intros k Hk. unfold le_at in *. now apply Qle_trans with (value_at a j).
  - apply after_le in E.
    constructor; [exact IH|].
    apply Forall_forall. intros k Hk.
    apply (Permutation_in _ (insert_pos_perm i l)) in Hk.
    destruct Hk as [<-|Hk]; [exact E|].
    rewrite Forall_forall in Hj. now apply Hj.
Qed.

Lemma insertion_argsort_perm :
  Permutation (insertion_argsort goes_before a) (seq 0 (length a)).
Proof.
  unfold insertion_argsort.
  induction (seq 0 (length a)) as [|i l IH]; simpl; [constructor|].
  rewrite insert_pos_perm. now constructor.
Qed.

Lemma insertion_argsort_sorted_at :
  StronglySorted le_at (insertion_argsort goes_before a).
Proof.
  unfold insertion_argsort.
  induction (seq 0 (length a)) as [|i l IH]; simpl; [constructor|].
  now apply insert_pos_sorted.
Qed.

Lemma take_value_at idx :
  Forall (fun i => i < length a) idx -> take a idx = map (value_at a) idx.
Proof.
  induction 1 as [|i idx Hi Hr IH]; [reflexivity|].
  rewrite take_cons, IH. simpl.
  destruct (nth_error a i) as [x|] eqn:E.
  - unfold value_at. now rewrite (nth_error_nth _ _ _ E).
  - apply nth_error_None in E. lia.
Qed.

Lemma insertion_argsort_sorted :
  StronglySorted Qle (take a (insertion_argsort goes_before a)).
Proof.
  rewrite take_value_at.
  - pose proof insertion_argsort_sorted_at as Hs.
    induction Hs as [|i l Hs IH Hi]; simpl; constructor; [exact IH|].
    rewrite Forall_map. exact Hi.
  - apply Forall_forall. intros i Hi.
    apply (Permutation_in _ insertion_argsort_perm) in Hi.
    apply in_seq in Hi. lia.
Qed.

End InsertionArgsortFacts.

Lemma Qle_bool_before x y : Qle_bool x y = true -> (x <= y)%Q.
Proof. apply Qle_bool_iff. Qed.

Lemma Qle_bool_after x y : Qle_bool x y = false -> (y <= x)%Q.
Proof.
  intros H. destruct (Qlt_le_dec y x) as [Hlt|Hle].
  - now apply Qlt_le_weak.
  - apply Qle_bool_iff in Hle. congruence.
Qed.

Lemma nodupb_NoDup (l : list nat) : nodupb l = true -> NoDup l.
Proof.
  induction l as [|x l IH]; simpl; [constructor|].
  intros H. apply andb_true_iff in H. destruct H as [Hx Hl].
  constructor; [|now apply IH].
  intros Hin. apply negb_true_iff in Hx.
  assert (E : existsb (Nat.eqb x) l = true); [|congruence].
  apply existsb_exists. exists x. split; [exact Hin | apply Nat.eqb_refl].
Qed.

Lemma ascending_sorted (l : list Q) : ascending l = true -> StronglySorted Qle l.
Proof.
  intros H. apply Sorted_StronglySorted; [exact Qle_trans|].
  induction l as [|x l IH]; [constructor|].
  destruct l as [|y l]; [repeat constructor|].
  cbn [ascending] in H. apply andb_true_iff in H. destruct H as [Hxy Hl].
  constructor; [now apply IH|]. constructor. now apply Qle_bool_iff.
Qed.

(** An outcome that passes the check is what [argsort] promises. *)
Lemma is_argsort_sound (a : list Q) (r : list nat) :
  is_argsort a r = true ->
  Permutation r (seq 0 (length a)) /\ StronglySorted Qle (take a r).
Proof.
  unfold is_argsort. intros H.
  apply andb_true_iff in H. destruct H as [H Hasc].
  apply andb_true_iff in H. destruct H as [H Hnd].
  apply andb_true_iff in H. destruct H as [Hlen Hrange].
  apply Nat.eqb_eq in Hlen.
  assert (Hlt : Forall (fun i => i < length a) r).
  { apply Forall_forall. intros i Hi.
    rewrite forallb_forall in Hrange. now apply Nat.ltb_lt, Hrange. }
  split.
  - apply NoDup_Permutation_bis.
    + now apply nodupb_NoDup.
    + rewrite length_seq. lia.
    + intros i Hi. rewrite Forall_forall in Hlt. apply in_seq.
      specialize (Hlt i Hi). lia.
  - rewrite take_value_at by exact Hlt. now apply ascending_sorted.
Qed.

Lemma numpy_positions_perm (a : list Q) :
  Permutation (numpy_positions a) (seq 0 (length a)).
Proof.
  unfold numpy_positions.
  destruct (is_argsort a (npy_aquicksort a)) eqn:E.
  - now apply is_argsort_sound.
  - apply insertion_argsort_perm.
Qed.

Lemma numpy_positions_sorted (a : list Q) :
  StronglySorted Qle (take a (numpy_positions a)).
Proof.
  unfold numpy_positions.
  destruct (is_argsort a (npy_aquicksort a)) eqn:E.
  - now apply is_argsort_sound.
  - apply insertion_argsort_sorted; [exact Qle_bool_before | exact Qle_bool_after].
Qed.

(** Equal values keep their order. *)
Definition stable_argsort : ArgSort :=
  mkArgSort (insertion_argsort Qle_bool)
            (insertion_argsort_perm Qle_bool)
            (insertion_argsort_sorted Qle_bool Qle_bool_before Qle_bool_after).

(** numpy's quicksort. *)
Definition numpy_argsort : ArgSort :=
  mkArgSort numpy_positions numpy_positions_perm numpy_positions_sorted.

(** Adding from left to right, as numpy's reduction does on fewer than
    eight values and bottleneck's loop on any number. *)
Definition sequential_sum : FloatSum :=
  mkFloatSum (fun vs => fold_left float_add vs 0%Q).

(** ** Ranking: what [top_n] returns *)

Section TopN.
Context {sorter : ArgSort} {A : Type}.
Variable score : A -> option Q.

Lemma top_n_split (k : nat) (frame : list A) :
  top_n score k frame =
  firstn k (ranked_present score frame) ++
  firstn (k - length (filter (present score) frame)) (filter (missing score) frame).
Proof.
  unfold top_n, head. rewrite sort_values_split, firstn_app.
  now rewrite (Permutation_length (ranked_present_perm score frame)).
Qed.

Lemma filter_present_all (l : list A) :
  Forall (fun a => present score a = true) l -> filter (present score) l = l.
Proof.
  induction 1 as [|x l Hx Hl IH]; [reflexivity|].
  simpl. now rewrite Hx, IH.
Qed.

Lemma filter_present_missing (l : list A) :
  filter (present score) (filter (missing score) l) = [].
Proof.
  induction l as [|x l IH]; [reflexivity|].
  simpl. destruct (missing score x) eqn:E; [|exact IH].
  simpl. unfold present, notna, missing in *. now rewrite E.
Qed.

Lemma filter_nil_firstn (f : A -> bool) (n : nat) (l : list A) :
  filter f l = [] -> filter f (firstn n l) = [].
Proof.
  revert n. induction l as [|x l IH]; intros [|n] H; try reflexivity.
  simpl in *. destruct (f x); [discriminate|]. now apply IH.
Qed.

Lemma Forall_firstn_of (P : A -> Prop) (n : nat) (l : list A) :
  Forall P l -> Forall P (firstn n l).
Proof.
  intros H. rewrite <- (firstn_skipn n l) in H.
  apply Forall_app in H. tauto.
Qed.

(** C1, as the code has it.  [top_n] returns [min k (number of rows)] rows,
    of which [min k (number of rows with a score)] have a score: a row
    without score is not excluded, it ranks after every row with one.  The
    rows returned are in non-increasing order of score (missing last), and
    each of them ranks at least as high as each row left out. *)
Theorem top_n_returns_the_best (k : nat) (frame : list A) :
  length (top_n score k frame) = Nat.min k (length frame)
  /\ length (filter (present score) (top_n score k frame)) =
     Nat.min k (length (filter (present score) frame))
  /\ StronglySorted (ranked_before score) (top_n score k frame)
  /\ exists rest,
       Permutation frame (top_n score k frame ++ rest)
       /\ forall a b, In a (top_n score k frame) -> In b rest ->
                      ranked_before score a b.
Proof.
  split; [|split; [|split]].
  - unfold top_n, head.
    now rewrite length_firstn, (Permutation_length (sort_values_perm score frame)).
  - rewrite top_n_split, filter_app.
    rewrite (filter_nil_firstn _ _ _ (filter_present_missing frame)), app_nil_r.
    rewrite filter_present_all
      by apply Forall_firstn_of, ranked_present_all.
    now rewrite length_firstn, (Permutation_length (ranked_present_perm score frame)).
  - unfold top_n, head.
    apply StronglySorted_app_l with (l2 := skipn k (sort_values score frame)).
    rewrite firstn_skipn. apply sort_values_sorted.
  - exists (skipn k (sort_values score frame)). unfold top_n, head. split.
    + rewrite firstn_skipn. symmetry. apply sort_values_perm.
    + apply StronglySorted_app_cross.
      rewrite firstn_skipn. apply sort_values_sorted.
Qed.

(** C7, as the code has it.  The order of the ranking is total and
    transitive, descending, with a missing score after every present one:
    [top_n] is the head of the present rows arranged best first, followed,
    only once all of those are in, by rows without score in their original
    row order.  How rows with equal present scores are arranged among
    themselves is left to the sorting routine. *)
Theorem top_n_order (k : nat) (frame : list A) :
  (forall a b, score_ge a b \/ score_ge b a)
  /\ (forall a b c, score_ge a b -> score_ge b c -> score_ge a c)
  /\ top_n score k frame =
     firstn k (ranked_present score frame) ++
     firstn (k - length (filter (present score) frame)) (filter (missing score) frame)
  /\ Permutation (ranked_present score frame) (filter (present score) frame)
  /\ StronglySorted (ranked_before score) (ranked_present score frame)
  /\ (forall a b, In a (top_n score k frame) -> missing score a = true ->
                  In b frame -> present score b = true ->
                  In b (top_n score k frame)).
Proof.
  split; [exact score_ge_total|].
  split; [exact score_ge_trans|].
  split; [apply top_n_split|].
  split; [apply ranked_present_perm|].
  split; [apply ranked_present_sorted|].
  intros a b Ha Hma Hb Hpb.
  rewrite top_n_split in *.
  apply in_app_or in Ha. apply in_or_app. left.
  assert (Hb' : In b (ranked_present score frame)).
  { apply (Permutation_in _ (Permutation_sym (ranked_present_perm score frame))).
    now apply filter_In. }
  destruct Ha as [Ha|Ha].
  - exfalso.
    pose proof (Forall_firstn_of _ k _ (ranked_present_all score frame)) as Hall.
    rewrite Forall_forall in Hall. specialize (Hall a Ha).
    unfold present, notna, missing in *. rewrite Hma in Hall. discriminate.
  - destruct (Nat.le_gt_cases k (length (filter (present score) frame))) as [Hk|Hk].
    + replace (k - length (filter (present score) frame)) with 0 in Ha by lia.
      contradiction.
    + rewrite firstn_all2; [exact Hb'|].
      rewrite (Permutation_length (ranked_present_perm score frame)). lia.
Qed.

End TopN.

(** C1 as stated fails: a table whose only row has no score yields one row,
    not [min 5 0]. *)
Lemma top_n_count_counterexample :
  length (@top_5_outliers stable_argsort [blank_row]) <>
  Nat.min 5 (length (filter (fun r => notna (Global_Composite_Score r)) [blank_row])).
Proof. vm_compute. discriminate. Qed.

(** C7 as stated fails: of eighteen rows with the same score, numpy's
    quicksort does not return the first five in row order.  The partition
    step exchanges positions whose keys are equal. *)
Lemma ties_in_row_order_counterexample :
  ~ ties_in_row_order (@top_5_outliers numpy_argsort tied_rows).
Proof.
  intros H.
  assert (Habs : 16 < 15); [|lia].
  apply (H 2 3 16 15 (scored_row "T" 1) (scored_row "T" 1));
    [lia | vm_compute; reflexivity | vm_compute; reflexivity |].
  simpl. apply Qeq_refl.
Qed.

(** ** Rules for the statements of the script *)

Section Triples.
Context {A B : Type}.

Lemma triple_ret (P : state -> Prop) (a : A) Q E :
  (forall s, P s -> Q a s) -> triple P (ret a) Q E.
Proof. intros H s Hs. now apply H. Qed.

Lemma triple_raise (P : state -> Prop) (e : exn) (Q : A -> state -> Prop) E :
  (forall s, P s -> E e s) -> triple P (raise e) Q E.
Proof. intros H s Hs. now apply H. Qed.

Lemma triple_lift (P : state -> Prop) (r : result A) Q E :
  (forall s, P s -> match r with Ok a => Q a s | Raise e => E e s end) ->
  triple P (lift r) Q E.
Proof. intros H s Hs. specialize (H s Hs). unfold lift. now destruct r. Qed.

Lemma triple_bind (P : state -> Prop) (m : M A) (f : A -> M B)
    (Q1 : A -> state -> Prop) (Q : B -> state -> Prop) E :
  triple P m Q1 E ->
  (forall a, triple (Q1 a) (f a) Q E) ->
  triple P (bind m f) Q E.
Proof.
  intros Hm Hf s Hs. specialize (Hm s Hs). unfold bind.
  destruct (m s) as [[a|e] s']; [now apply Hf | exact Hm].
Qed.

Lemma triple_weaken (P P' : state -> Prop) (m : M A)
    (Q Q' : A -> state -> Prop) (E E' : exn -> state -> Prop) :
  triple P' m Q' E' ->
  (forall s, P s -> P' s) ->
  (forall a s, Q' a s -> Q a s) ->
  (forall e s, E' e s -> E e s) ->
  triple P m Q E.
Proof.
  intros Hm HP HQ HE s Hs. specialize (Hm s (HP s Hs)).
  destruct (m s) as [[a|e] s']; auto.
Qed.

End Triples.

(** ** The loaded table is never written to *)

Section Frame.
Variable h0 : list pyobject.

Let inv : state -> Prop := extends h0.
Let inv_exn (e : exn) : state -> Prop := extends h0.

Lemma load_frame_extends ref :
  triple inv (load_frame ref) (fun _ => inv) inv_exn.
Proof.
  intros s Hs. unfold load_frame, bind, load.
  destruct (nth_error (heap s) ref) as [[]|]; exact Hs.
Qed.

Lemma getitems_extends ref cs :
  triple inv (getitems ref cs) (fun _ => inv) inv_exn.
Proof.
  unfold getitems.
  eapply triple_bind; [apply load_frame_extends|]. intros d.
  eapply triple_bind; [apply triple_lift with (Q := fun _ => inv)|].
  - intros s Hs. now destruct (require_columns _ _).
  - intros u. now apply triple_ret.
Qed.

Lemma getitem_extends ref c :
  triple inv (getitem ref c) (fun _ => inv) inv_exn.
Proof. apply getitems_extends. Qed.

Lemma render_extends v :
  triple inv (render v) (fun _ => inv) inv_exn.
Proof. intros s Hs. exact Hs. Qed.

Lemma lift_extends {A : Type} (r : result A) :
  triple inv (lift r) (fun _ => inv) inv_exn.
Proof. apply triple_lift. intros s Hs. now destruct r. Qed.

(** A new object leaves the old ones alone, and its reference is past
    them. *)
Lemma alloc_extends o :
  triple inv (alloc o) (fun ref s => length h0 <= ref /\ inv s) inv_exn.
Proof.
  intros s [rest Hs]. simpl. split.
  - rewrite Hs, length_app. lia.
  - exists (rest ++ [o]). now rewrite Hs, app_assoc.
Qed.

Lemma load_ranking_extends ref cs :
  triple inv (load_ranking ref cs) (fun _ => inv) inv_exn.
Proof.
  intros s Hs. unfold load_ranking, bind, load.
  destruct (nth_error (heap s) ref) as [[]|]; try exact Hs.
  unfold lift. destruct (require_columns _ _); exact Hs.
Qed.

Lemma load_hist_extends ref :
  triple inv (load_hist ref) (fun _ => inv) inv_exn.
Proof.
  intros s Hs. unfold load_hist, bind, load.
  destruct (nth_error (heap s) ref) as [[]|]; exact Hs.
Qed.

(** Writing behind a reference that is past [h0] leaves [h0] alone. *)
Lemma store_extends ref o :
  length h0 <= ref ->
  triple inv (store ref o) (fun _ => inv) inv_exn.
Proof.
  intros Href s [rest Hs]. unfold store.
  destruct (ref <? length (heap s)) eqn:E; [|now exists rest].
  unfold inv, extends. cbn [heap]. rewrite Hs.
  exists (firstn (ref - length h0) rest ++ o :: skipn (S ref - length h0) rest).
  rewrite firstn_app, skipn_app, firstn_all2, skipn_all2 by lia.
  now rewrite <- app_assoc.
Qed.

Lemma load_extends ref :
  triple inv (load ref) (fun _ => inv) inv_exn.
Proof.
  intros s Hs. unfold load.
  destruct (nth_error (heap s) ref); exact Hs.
Qed.

(** [fillna] overwrites the frame it is called on, whichever it is: it
    leaves [h0] alone when that frame is not one of [h0]. *)
Lemma fillna_inplace_extends ref :
  length h0 <= ref ->
  triple inv (fillna_inplace ref) (fun _ => inv) inv_exn.
Proof.
  intros Href. unfold fillna_inplace.
  eapply triple_bind; [apply load_extends|].
  intros o. now apply store_extends.
Qed.

Lemma melt_input_extends ref value_name cs :
  triple inv (melt_input ref value_name cs) (fun _ => inv) inv_exn.
Proof.
  intros s Hs. unfold melt_input, bind, load.
  destruct (nth_error (heap s) ref) as [[]|]; try exact Hs.
  unfold lift. destruct (check_value_name _ _); [|exact Hs].
  destruct (require_columns _ _); exact Hs.
Qed.

End Frame.

Lemma triple_pure_pre {A : Type} (fact : Prop) (P : state -> Prop) (m : M A) Q E :
  (fact -> triple P m Q E) -> triple (fun s => fact /\ P s) m Q E.
Proof. intros H s [Hf Hs]. now apply H. Qed.

Lemma triple_final {A : Type} (P I : state -> Prop) (m : M A) (s : state) :
  triple P m (fun _ => I) (fun _ => I) -> P s -> I (snd (m s)).
Proof.
  intros H Hs. specialize (H s Hs). now destruct (m s) as [[a|e] s'].
Qed.

Ltac frame_rule :=
  first [ apply getitem_extends | apply getitems_extends | apply render_extends
        | apply lift_extends | apply load_frame_extends
        | apply load_ranking_extends | apply load_hist_extends
        | apply melt_input_extends ].

Ltac frame_steps :=
  repeat first
    [ frame_rule
    | eapply triple_bind; [frame_rule | intros ?]
    | eapply triple_bind; [apply alloc_extends | intros ?; apply triple_pure_pre; intros ?] ].

Section StagesFrame.
Context {sorter : ArgSort} {summation : FloatSum}.
Variables (h0 : list pyobject) (df : nat).

Lemma kpi_metrics_extends :
  triple (extends h0) (kpi_metrics df) (fun _ => extends h0) (fun _ => extends h0).
Proof. unfold kpi_metrics. frame_steps. Qed.

Lemma geographic_map_extends :
  triple (extends h0) (geographic_map df) (fun _ => extends h0) (fun _ => extends h0).
Proof. unfold geographic_map. frame_steps. Qed.

Lemma party_distribution_extends :
  triple (extends h0) (party_distribution df) (fun _ => extends h0) (fun _ => extends h0).
Proof. unfold party_distribution. frame_steps. Qed.

Lemma neighborhood_comparisons_extends :
  triple (extends h0) (neighborhood_comparisons df) (fun _ => extends h0)
         (fun _ => extends h0).
Proof. unfold neighborhood_comparisons. frame_steps. Qed.

(** The one statement that writes in place, [fillna], writes to the frame
    that was created two lines above it. *)
Lemma historical_trends_extends :
  triple (extends h0) (historical_trends df) (fun _ => extends h0) (fun _ => extends h0).
Proof.
  unfold historical_trends. frame_steps.
  eapply triple_bind; [now apply fillna_inplace_extends | intros ?].
  frame_steps.
Qed.

Lemma dashboard_extends :
  triple (extends h0) (dashboard df) (fun _ => extends h0) (fun _ => extends h0).
Proof.
  unfold dashboard.
  eapply triple_bind; [apply kpi_metrics_extends | intros ?].
  eapply triple_bind; [apply geographic_map_extends | intros ?].
  eapply triple_bind; [apply party_distribution_extends | intros ?].
  eapply triple_bind; [apply neighborhood_comparisons_extends | intros ?].
  apply historical_trends_extends.
Qed.

End StagesFrame.

Lemma extends_lookup (h0 : list pyobject) (s : state) (ref : nat) (o : pyobject) :
  extends h0 s -> nth_error h0 ref = Some o -> nth_error (heap s) ref = Some o.
Proof.
  intros [rest ->] H. rewrite nth_error_app1; [exact H|].
  apply nth_error_Some. congruence.
Qed.

(** C10.  Whatever the store and wherever the loaded table sits in it, each
    stage of the script, and the script as a whole, only adds objects to the
    store: the objects that were there, the loaded table among them, are the
    same afterwards, whether the stage completed or raised.  The in-place
    [fillna] is part of [historical_trends]; it can overwrite any frame of
    the store (see [fillna_on_the_loaded_table]), and the frame it is called
    on is the one created by the statement before it. *)
Theorem loaded_table_unchanged {sorter : ArgSort} {summation : FloatSum}
    (df : nat) (d : DataFrame) (s : state) :
  nth_error (heap s) df = Some (ODataFrame d) ->
  Forall (fun stage : M unit =>
            extends (heap s) (snd (stage s)) /\
            nth_error (heap (snd (stage s))) df = Some (ODataFrame d))
         [kpi_metrics df; geographic_map df; party_distribution df;
          neighborhood_comparisons df; historical_trends df; dashboard df].
Proof.
  intros Hd.
  assert (H0 : extends (heap s) s) by (exists []; now rewrite app_nil_r).
  assert (Hall : forall stage : M unit,
            triple (extends (heap s)) stage (fun _ => extends (heap s))
                   (fun _ => extends (heap s)) ->
            extends (heap s) (snd (stage s)) /\
            nth_error (heap (snd (stage s))) df = Some (ODataFrame d)).
  { intros stage Ht.
    pose proof (triple_final _ _ _ _ Ht H0) as He.
    split; [exact He | now apply extends_lookup with (h0 := heap s)]. }
  repeat (apply Forall_cons; [apply Hall|]); [..|apply Forall_nil].
  - apply kpi_metrics_extends.
  - apply geographic_map_extends.
  - apply party_distribution_extends.
  - apply neighborhood_comparisons_extends.
  - apply historical_trends_extends.
  - apply dashboard_extends.
Qed.

(** ** Missing columns *)

Lemma require_columns_ok (header cs : list string) :
  require_columns header cs = Ok tt ->
  Forall (fun c => has_column header c = true) cs.
Proof.
  induction cs as [|c cs IH]; simpl; [constructor|].
  destruct (has_column header c) eqn:E; [|discriminate].
  intros H. constructor; [exact E | now apply IH].
Qed.

Lemma require_columns_raise (header cs : list string) (e : exn) :
  require_columns header cs = Raise e ->
  exists c, e = KeyError c /\ In c cs /\ has_column header c = false.
Proof.
  induction cs as [|c cs IH]; simpl; [discriminate|].
  destruct (has_column header c) eqn:E.
  - intros H. destruct (IH H) as (c' & ? & ? & ?). exists c'. auto.
  - intros H. injection H as <-. exists c. auto.
Qed.

Lemma marker_loop_ok (header : list string) (l : list Row) (ms : list MarkerT) :
  marker_loop header l = Ok ms -> l <> [] ->
  require_columns header marker_columns = Ok tt.
Proof.
  destruct l as [|r l]; [congruence|]. intros H _.
  simpl in H. unfold marker_of_row in H.
  destruct (require_columns header marker_columns) as [[]|e]; [reflexivity|discriminate].
Qed.

Lemma marker_loop_raise (header : list string) (l : list Row) (e : exn) :
  marker_loop header l = Raise e ->
  e = ValueError "Location values cannot contain NaNs." \/
  exists c, e = KeyError c /\ In c marker_columns /\ has_column header c = false.
Proof.
  induction l as [|r l IH]; simpl; [discriminate|].
  unfold marker_of_row.
  destruct (require_columns header marker_columns) as [[]|e'] eqn:Hc.
  - destruct (validate_location (Latitude r) (Longitude r)) as [loc|e'] eqn:Hv.
    + destruct (marker_loop header l) as [ms|e'']; [discriminate|].
      intros H. injection H as <-. now apply IH.
    + intros H. injection H as <-. left.
      unfold validate_location in Hv.
      destruct (Latitude r), (Longitude r); congruence.
  - intros H. injection H as <-. right.
    exact (require_columns_raise _ _ _ Hc).
Qed.

Lemma turnout_raise (a b : scalar) (e : exn) :
  turnout a b = Raise e -> e = ZeroDivisionError.
Proof.
  unfold turnout, true_divide.
  destruct (sdtype a), (sdtype b), (sval b =? 0)%Z; congruence.
Qed.

Lemma turnout_empty : turnout (total_accredited []) (total_registered []) = Raise ZeroDivisionError.
Proof. reflexivity. Qed.

Lemma validate_location_raise (lat lon : option Q) (e : exn) :
  validate_location lat lon = Raise e ->
  e = ValueError "Location values cannot contain NaNs.".
Proof. destruct lat, lon; simpl; congruence. Qed.

(** Running the script on a store that holds only the loaded table: every
    step computes, up to the tests on the header and the results that depend
    on the cells. *)
Ltac run :=
  cbv beta iota zeta delta
      [bind ret raise lift getitem getitems load_frame load
       load_ranking load_hist melt_input fillna_inplace store alloc render
       nth_error heap rendered require_columns fst snd app Datatypes.length
       Nat.ltb Nat.leb firstn skipn].

Ltac known :=
  repeat match goal with
         | H : has_column ?h ?c = true |- context [has_column ?h ?c] => rewrite H
         end; run.

Ltac columns_by fin :=
  known;
  repeat (match goal with
          | |- context [has_column (columns ?d) ?c] =>
              let H := fresh "Hcol" in
              destruct (has_column (columns d) c) eqn:H; run; [|solve [fin]]
          end; known).

(** The test of [melt] on its [value_name]: the run goes on when the table
    has no column of that name. *)
Ltac value_name_by fin :=
  unfold check_value_name;
  match goal with
  | |- context [has_column (columns ?d) "Z-Score"] =>
      let H := fresh "Hz" in
      destruct (has_column (columns d) "Z-Score") eqn:H; run; [solve [fin]|]
  end.

Ltac staged := unfold well_staged, stopping_points; split; [simpl; tauto | reflexivity].

Ltac none_passed :=
  let c := fresh "c" in
  let Hin := fresh "Hin" in
  let Hc := fresh "Hc" in
  intros c Hin Hc; unfold required_columns in Hin; cbn [In] in Hin;
  repeat (destruct Hin as [<-|Hin];
          [first [congruence | apply Nat.leb_le; reflexivity]|]);
  contradiction.

Ltac named :=
  let Hk := fresh "Hk" in
  intros ? Hk;
  first [ discriminate Hk
        | injection Hk as <-; split; [simpl; tauto | assumption] ].

Ltac stopped :=
  unfold outcome_as_read; cbn [fst snd rendered];
  split; [staged|];
  unfold stops_where_it_reads, names_missing_column;
  split; [named|];
  split; [none_passed|];
  let Hk := fresh "Hk" in
  intros ? Hk; first [discriminate Hk | injection Hk as <-; reflexivity].

(** Every run ends as the script reads: the views rendered are a head of
    the page cut between two stages; a run that raises has passed no
    statement that reads a missing column. *)
Lemma run_as_read {sorter : ArgSort} {summation : FloatSum} (d : DataFrame) :
  outcome_as_read d (run_dashboard d).
Proof.
  unfold run_dashboard, dashboard, kpi_metrics.
  run. columns_by stopped.
  destruct (turnout _ _) as [pct|e] eqn:Ht; run.
  2:{ apply turnout_raise in Ht. subst e. stopped. }
  assert (Hrows : rows d <> []).
  { intros Hr. rewrite Hr, turnout_empty in Ht. discriminate. }
  unfold geographic_map. run. columns_by stopped.
  destruct (validate_location _ _) as [center|e] eqn:Hv; run.
  2:{ apply validate_location_raise in Hv. subst e. stopped. }
  destruct (marker_cluster d) as [ms|e] eqn:Hm; run.
  2:{ apply marker_loop_raise in Hm. destruct Hm as [->|(c' & -> & Hc1 & Hc2)].
      - stopped.
      - unfold outcome_as_read; cbn [fst snd rendered].
        split; [staged|].
        unfold stops_where_it_reads, names_missing_column.
        split; [|split; [none_passed|]].
        + intros c'' Hk. injection Hk as <-.
          split; [|assumption]. revert Hc1. simpl. tauto.
        + intros c'' Hk. injection Hk as <-.
          unfold marker_columns in Hc1. cbn [In] in Hc1.
          repeat (destruct Hc1 as [<-|Hc1]; [first [congruence | reflexivity]|]).
          contradiction. }
  apply marker_loop_ok in Hm; [|assumption].
  apply require_columns_ok in Hm. unfold marker_columns in Hm.
  repeat match goal with H : Forall _ (_ :: _) |- _ => inversion H; clear H; subst end.
  known.
  unfold party_distribution. run.
  unfold shown_columns, z_score_columns. cbn [map fst]. run. columns_by stopped.
  value_name_by stopped.
  known.
  unfold neighborhood_comparisons. run. columns_by stopped.
  unfold historical_trends. run. columns_by stopped.
  unfold outcome_as_read; cbn [fst snd rendered].
  split; [staged|].
  unfold required_columns. repeat constructor; assumption.
Qed.

Lemma first_column_missing {sorter : ArgSort} {summation : FloatSum} (d : DataFrame) :
  has_column (columns d) "PU-Code" = false ->
  run_dashboard d = (Raise (KeyError "PU-Code"), mkState [ODataFrame d] []).
Proof.
  intros H. unfold run_dashboard, dashboard, kpi_metrics. run.
  now rewrite H.
Qed.

(** C3, as the code has it.  The script has no schema check.  With a
    required column [c] missing the run does not complete.  It stops with an
    exception at or before the first statement that reads [c]: the page
    holds at most the views rendered before that statement, and those views
    are the first ones of the page.  When the exception is a [KeyError] it
    names a required column that the table lacks, and it comes from the
    first statement that reads that column.  Nothing is rendered when [c] is
    one of the four columns of the KPI tiles, which are read before the
    first tile is drawn. *)
Theorem missing_column_raises_key_error {sorter : ArgSort} {summation : FloatSum}
    (d : DataFrame) (c : string) :
  In c required_columns -> has_column (columns d) c = false ->
  exists e, fst (run_dashboard d) = Raise e
    /\ names_missing_column d e
    /\ length (rendered (snd (run_dashboard d))) <= views_before c
    /\ map view_title (rendered (snd (run_dashboard d))) =
       firstn (length (rendered (snd (run_dashboard d)))) page_titles
    /\ (forall c', e = KeyError c' ->
          length (rendered (snd (run_dashboard d))) = views_before c')
    /\ (In c kpi_columns -> rendered (snd (run_dashboard d)) = [])
    /\ (has_column (columns d) "PU-Code" = false ->
        e = KeyError "PU-Code" /\ rendered (snd (run_dashboard d)) = []).
Proof.
  intros Hin Hc.
  destruct (run_as_read d) as [[_ Htitles] Hout].
  destruct (fst (run_dashboard d)) as [u|e] eqn:He.
  - exfalso. rewrite Forall_forall in Hout.
    specialize (Hout c Hin). congruence.
  - destruct Hout as (Hnames & Hpassed & Hfirst).
    exists e. split; [reflexivity|]. split; [exact Hnames|].
    split; [now apply Hpassed|]. split; [exact Htitles|].
    split; [exact Hfirst|]. split.
    + intros Hk. specialize (Hpassed c Hin Hc).
      assert (Hv : views_before c = 0).
      { unfold kpi_columns in Hk. cbn [In] in Hk.
        repeat (destruct Hk as [<-|Hk]; [reflexivity|]). contradiction. }
      rewrite Hv in Hpassed. apply length_zero_iff_nil. lia.
    + intros Hp. rewrite (first_column_missing d Hp) in *. simpl in *.
      split; [congruence | reflexivity].
Qed.

(** C3 as stated fails: without the [LGA] column the KPI tiles, the map, the
    ranking table and the z-score chart are rendered before the run stops,
    and it stops with a [KeyError]. *)
Lemma schema_error_counterexample :
  In "LGA"%string required_columns
  /\ has_column (columns frame_without_lga) "LGA" = false
  /\ fst (@run_dashboard stable_argsort sequential_sum frame_without_lga) =
     Raise (KeyError "LGA")
  /\ length (rendered (snd (@run_dashboard stable_argsort sequential_sum
                              frame_without_lga))) = 8.
Proof. vm_compute. repeat split; tauto. Qed.

(** ** KPI: distinct polling units *)

Lemma cell_eqb_eq (a b : option string) : cell_eqb a b = true <-> a = b.
Proof.
  destruct a as [x|], b as [y|]; simpl; try (split; congruence).
  rewrite String.eqb_eq. split; congruence.
Qed.

Lemma existsb_cell_eqb (x : option string) (seen : list (option string)) :
  existsb (cell_eqb x) seen = true <-> In x seen.
Proof.
  rewrite existsb_exists. split.
  - intros (y & Hy & E). apply cell_eqb_eq in E. now subst.
  - intros H. exists x. split; [exact H | now apply cell_eqb_eq].
Qed.

Lemma unique_from_In (seen l : list (option string)) (x : option string) :
  In x (unique_from seen l) <-> In x l /\ ~ In x seen.
Proof.
  revert seen. induction l as [|y l IH]; intro seen; simpl; [tauto|].
  destruct (existsb (cell_eqb y) seen) eqn:E.
  - apply existsb_cell_eqb in E. rewrite IH.
    split; [tauto|]. intros [[->|H] Hn]; tauto.
  - assert (Hy : ~ In y seen).
    { intros H. apply existsb_cell_eqb in H. congruence. }
    simpl. rewrite IH. simpl. split.
    + intros [<-|[H Hn]]; [tauto|]. split; [tauto|]. tauto.
    + intros [[<-|H] Hn]; [tauto|].
      destruct (cell_eqb y x) eqn:Eyx.
      * apply cell_eqb_eq in Eyx. tauto.
      * right. split; [exact H|]. intros [->|H']; [|tauto].
        assert (cell_eqb x x = true) by now apply cell_eqb_eq.
        congruence.
Qed.

Lemma unique_from_NoDup (seen l : list (option string)) :
  NoDup (unique_from seen l).
Proof.
  revert seen. induction l as [|y l IH]; intro seen; simpl; [constructor|].
  destruct (existsb (cell_eqb y) seen); [apply IH|].
  constructor; [|apply IH].
  rewrite unique_from_In. simpl. tauto.
Qed.

Lemma unique_In (col : list (option string)) (x : option string) :
  In x (unique col) <-> In x col.
Proof. unfold unique. rewrite unique_from_In. simpl. tauto. Qed.

Lemma NoDup_map_Some {A : Type} (l : list A) : NoDup l -> NoDup (map Some l).
Proof.
  induction 1 as [|x l Hx Hl IH]; simpl; constructor; [|exact IH].
  rewrite in_map_iff. intros (y & E & Hy). congruence.
Qed.

Lemma nunique_counts (col : list (option string)) (codes : list string) :
  NoDup codes ->
  (forall c, In c codes <-> In (Some c) col) ->
  nunique col = length codes.
Proof.
  intros Hnd Hc. unfold nunique.
  rewrite <- (length_map Some codes).
  apply Permutation_length, NoDup_Permutation.
  - apply NoDup_filter, unique_from_NoDup.
  - now apply NoDup_map_Some.
  - intros x. rewrite filter_In, unique_In, in_map_iff. split.
    + intros [Hx Hp]. destruct x as [c|]; [|discriminate].
      exists c. split; [reflexivity | now apply Hc].
    + intros (c & <- & Hin). split; [now apply Hc | reflexivity].
Qed.

(** C8.  When [codes] lists the unit codes of the table without repetition,
    [total_polling_units] is the length of that list, for the table and for
    every rearrangement of its rows. *)
Theorem total_polling_units_counts_distinct_codes (df df' : list Row) (codes : list string) :
  NoDup codes ->
  (forall c, In c codes <-> In (Some c) (map PU_Code df)) ->
  Permutation df df' ->
  total_polling_units df = length codes /\
  total_polling_units df' = length codes.
Proof.
  intros Hnd Hc Hp. unfold total_polling_units. split.
  - now apply nunique_counts.
  - apply nunique_counts; [exact Hnd|].
    intros c. rewrite Hc. split; apply Permutation_in.
    + now apply Permutation_map.
    + now apply Permutation_map, Permutation_sym.
Qed.

(** ** KPI: turnout with no registered voter *)

Lemma series_sum_dtype (col : list (option Z)) :
  col <> [] -> sdtype (series_sum col) <> object.
Proof.
  destruct col as [|c col]; [congruence|]. intros _.
  unfold series_sum, infer_dtype.
  destruct (forallb notna (c :: col)); simpl; discriminate.
Qed.

(** C2, as the code has it.  On a table with at least one row the sums are
    numpy scalars and the division by a zero sum returns a non-finite value:
    NaN when the accredited total is zero as well, an infinity otherwise. *)
Theorem turnout_without_registered_voters (df : list Row) :
  df <> [] ->
  sval (total_registered df) = 0%Z ->
  voter_turnout df =
  Ok (if (sval (total_accredited df) =? 0)%Z then NaN
      else if (0 <? sval (total_accredited df))%Z then PInf else NInf).
Proof.
  intros Hne Hz.
  assert (Hr : sdtype (total_registered df) <> object).
  { apply series_sum_dtype. now destruct df. }
  unfold voter_turnout, turnout, true_divide. rewrite Hz. simpl.
  destruct (sdtype (total_accredited df)), (sdtype (total_registered df));
    try congruence;
    destruct (sval (total_accredited df) =? 0)%Z; try reflexivity;
    destruct (0 <? sval (total_accredited df))%Z; reflexivity.
Qed.

(** C2 as stated fails on the table without rows: both sums are the Python
    integer 0 and the division raises. *)
Lemma turnout_empty_table_counterexample :
  sval (total_registered []) = 0%Z /\
  voter_turnout [] = Raise ZeroDivisionError /\
  ~ (forall df, sval (total_registered df) = 0%Z -> exists x, voter_turnout df = Ok x).
Proof.
  split; [reflexivity|]. split; [reflexivity|].
  intros H. destruct (H [] eq_refl) as [x Hx]. discriminate Hx.
Qed.

(** ** Map layers: rows without coordinates *)

Lemma marker_loop_incomplete (header : list string) (l : list Row) (r : Row) :
  In r l -> Latitude r = None \/ Longitude r = None ->
  exists e, marker_loop header l = Raise e /\
            (require_columns header marker_columns = Ok tt ->
             e = ValueError "Location values cannot contain NaNs.").
Proof.
  intros Hin Hgap. induction l as [|r' l IH]; [contradiction|].
  cbn [marker_loop]. unfold marker_of_row.
  destruct (require_columns header marker_columns) as [[]|e] eqn:Hc.
  - destruct (validate_location (Latitude r') (Longitude r')) as [loc|e] eqn:Hv.
    + destruct Hin as [->|Hin].
      * unfold validate_location in Hv.
        destruct Hgap as [Hg|Hg]; rewrite Hg in Hv;
          [|destruct (Latitude r)]; discriminate.
      * destruct (IH Hin) as (e & -> & He). exists e. auto.
    + exists e. split; [reflexivity|]. intros _.
      now apply validate_location_raise in Hv.
  - exists e. split; [reflexivity|]. intros H. discriminate H.
Qed.

Lemma heat_data_complete (l : list Row) :
  heat_data l = heat_data (filter complete_geo l) /\
  length (heat_data l) = length (filter complete_geo l).
Proof.
  induction l as [|r l [IH1 IH2]]; [split; reflexivity|].
  unfold heat_data, complete_geo, notna in *. simpl.
  destruct (Latitude r) eqn:E1, (Longitude r) eqn:E2,
           (Global_Composite_Score r) eqn:E3; simpl;
    rewrite ?E1, ?E2, ?E3; simpl; split; congruence.
Qed.

(** C9: the two layers treat a row without coordinates differently.  The
    heat layer is built from the rows that have both coordinates and a
    score.  The marker loop goes over every row and stops with an exception
    at the first one without a coordinate, so no marker layer is produced. *)
Theorem marker_layer_stops_at_missing_coordinates (d : DataFrame) (r : Row) :
  In r (rows d) ->
  Latitude r = None \/ Longitude r = None ->
  (exists e, marker_cluster d = Raise e /\
             (require_columns (columns d) marker_columns = Ok tt ->
              e = ValueError "Location values cannot contain NaNs."))
  /\ complete_geo r = false
  /\ heat_data (rows d) = heat_data (filter complete_geo (rows d))
  /\ length (heat_data (rows d)) = length (filter complete_geo (rows d)).
Proof.
  intros Hin Hgap. split; [now apply marker_loop_incomplete with r|].
  split; [|apply heat_data_complete].
  unfold complete_geo. destruct Hgap as [->| ->]; [reflexivity|].
  now destruct (Latitude r).
Qed.

(** ** Historical series *)





(** [fillna] called on the loaded table would overwrite it: the table with
    a latitude missing is not the same afterwards. *)
Example fillna_on_the_loaded_table :
  let s := mkState [ODataFrame frame_with_gap] [] in
  fst (fillna_inplace 0 s) = Ok tt
  /\ nth_error (heap (snd (fillna_inplace 0 s))) 0 <> Some (ODataFrame frame_with_gap)
  /\ ~ extends (heap s) (snd (fillna_inplace 0 s)).
Proof.
  split; [reflexivity|]. split.
  - intros H. vm_compute in H. discriminate H.
  - intros [rest H]. vm_compute in H. discriminate H.
Qed.

Lemma wrap64_in_range (z : Z) :
  (- 2 ^ 63 <= z < 2 ^ 63)%Z -> wrap64 z = z.
Proof.
  intros H. unfold wrap64.
  rewrite Z.mod_small by lia. lia.
Qed.

(** Below the int64 range the sum of a column is the plain sum of its
    present cells. *)
Lemma column_sum_exact (field : Row -> option Z) (df : list Row) :
  (- 2 ^ 63 <= nansum (map field df) < 2 ^ 63)%Z ->
  column_sum field df = nansum (map field df).
Proof.
  intros H. unfold column_sum, series_sum.
  destruct (infer_dtype (map field df)); simpl; [reflexivity| |reflexivity].
  now apply wrap64_in_range.
Qed.






(** ** Wide to long *)

Section Melt.
Context {A : Type}.
Variable id_var : A -> option string.

Implicit Types (value_vars : list (string * (A -> option Q))) (frame : list A).









End Melt.

(** ** Per-LGA means *)

Lemma insert_key_perm (k : string) (l : list string) :
  Permutation (insert_key k l) (k :: l).
Proof.
  induction l as [|h t IH]; simpl; [reflexivity|].
  destruct (String.leb k h); [reflexivity|].
  rewrite IH. apply perm_swap.
Qed.

Lemma sort_keys_perm (l : list string) : Permutation (sort_keys l) l.
Proof.
  induction l as [|k l IH]; simpl; [constructor|].
  rewrite insert_key_perm. now constructor.
Qed.

Lemma dropna_In {A : Type} (l : list (option A)) (x : A) :
  In x (dropna l) <-> In (Some x) l.
Proof.
  induction l as [|[y|] l IH]; simpl; [tauto| |].
  - rewrite IH. split; intros [H|H]; auto; left; congruence.
  - rewrite IH. split; [auto|]. intros [H|H]; [discriminate|exact H].
Qed.

Lemma dropna_NoDup {A : Type} (l : list (option A)) :
  NoDup l -> NoDup (dropna l).
Proof.
  induction 1 as [|[y|] l Hx Hl IH]; simpl; [constructor| |exact IH].
  constructor; [|exact IH]. now rewrite dropna_In.
Qed.

Lemma group_keys_NoDup (col : list (option string)) : NoDup (group_keys col).
Proof.
  unfold group_keys.
  apply (Permutation_NoDup (Permutation_sym (sort_keys_perm _))).
  apply dropna_NoDup, unique_from_NoDup.
Qed.

Lemma group_keys_In (col : list (option string)) (g : string) :
  In g (group_keys col) <-> In (Some g) col.
Proof.
  unfold group_keys. rewrite <- unique_In, <- dropna_In.
  split; apply Permutation_in;
    [apply sort_keys_perm | apply Permutation_sym, sort_keys_perm].
Qed.


(** ** Rounding *)

Lemma rint_cases (n : Z) (d : positive) :
  let z := rint (n # d) in
  (2 * (z * Zpos d - n) <= Zpos d /\ 2 * (n - z * Zpos d) <= Zpos d)%Z
  /\ ((2 * (n - z * Zpos d) = Zpos d \/ 2 * (z * Zpos d - n) = Zpos d)%Z -> Z.even z = true).
Proof.
  unfold rint. cbn [Qnum Qden].
  pose proof (Z.div_mod n (Zpos d) ltac:(lia)) as Hdm.
  pose proof (Z.mod_pos_bound n (Zpos d) ltac:(lia)) as Hb.
  set (fl := (n / Zpos d)%Z) in *. set (r := (n mod Zpos d)%Z) in *.
  clearbody fl r. subst n.
  destruct (2 * r ?= Zpos d)%Z eqn:E.
  - apply Z.compare_eq in E.
    destruct (Z.even fl) eqn:Ev.
    + split; [lia|]. auto.
    + split; [lia|]. intros _. rewrite Z.even_add, Ev. reflexivity.
  - rewrite Z.compare_lt_iff in E. split; [lia|]. intros [H|H]; exfalso; lia.
  - rewrite Z.compare_gt_iff in E. split; [lia|]. intros [H|H]; exfalso; lia.
Qed.

Lemma rint_is_nearest (q : Q) :
  (inject_Z (rint q) - q <= 1 # 2)%Q /\ (q - inject_Z (rint q) <= 1 # 2)%Q.
Proof.
  destruct q as [n d]. destruct (rint_cases n d) as [[H1 H2] _].
  unfold Qle, Qminus, Qplus, Qopp, inject_Z. cbn [Qnum Qden].
  split; lia.
Qed.

Lemma rint_tie_even (q : Q) :
  (q - inject_Z (rint q) == 1 # 2)%Q \/ (inject_Z (rint q) - q == 1 # 2)%Q ->
  Z.even (rint q) = true.
Proof.
  destruct q as [n d]. destruct (rint_cases n d) as [_ H].
  unfold Qeq, Qminus, Qplus, Qopp, inject_Z. cbn [Qnum Qden].
  intros [E|E]; apply H; [left|right]; Lia.lia.
Qed.

Lemma rint_monotone (x y : Q) : (x <= y)%Q -> (rint x <= rint y)%Z.
Proof.
  intros Hxy.
  destruct (Z.le_gt_cases (rint x) (rint y)) as [H|H]; [exact H|exfalso].
  destruct (rint_is_nearest x) as [Hx1 Hx2].
  destruct (rint_is_nearest y) as [Hy1 Hy2].
  assert (Hab : (inject_Z (rint y) + 1 <= inject_Z (rint x))%Q).
  { unfold Qle, Qplus, inject_Z. cbn [Qnum Qden]. Lia.lia. }
  assert (Ex : (inject_Z (rint x) - x == 1 # 2)%Q) by (apply Qle_antisym; lra).
  assert (Ey : (y - inject_Z (rint y) == 1 # 2)%Q) by (apply Qle_antisym; lra).
  assert (Hd : (inject_Z (rint x) == inject_Z (rint y) + 1)%Q) by (apply Qle_antisym; lra).
  pose proof (rint_tie_even x (or_intror Ex)) as Evx.
  pose proof (rint_tie_even y (or_introl Ey)) as Evy.
  assert (Hz : rint x = (rint y + 1)%Z).
  { unfold Qeq, Qplus, inject_Z in Hd. cbn [Qnum Qden] in Hd. Lia.lia. }
  rewrite Hz, Z.even_add, Evy in Evx. discriminate.
Qed.

Lemma rint_integer (x : Q) (z : Z) : (x == inject_Z z)%Q -> rint x = z.
Proof.
  intros E.
  destruct (rint_is_nearest x) as [H1 H2].
  assert (Ha : (inject_Z (rint x) <= inject_Z z + (1 # 2))%Q) by lra.
  assert (Hb : (inject_Z z <= inject_Z (rint x) + (1 # 2))%Q) by lra.
  unfold Qle, Qplus, inject_Z in Ha, Hb. cbn [Qnum Qden] in Ha, Hb. Lia.lia.
Qed.

Section FloatError.
Local Open Scope Q_scope.






End FloatError.



Section FloatExact.
Local Open Scope Q_scope.






End FloatExact.


(** ** The properties at sample tables *)

(** Two polling units with the same score: both routines rank them in row
    order, numpy's quicksort sorts a range this short by insertion. *)
Example tie_between_two_rows :
  map fst (top_5_outliers (sorter := stable_argsort)
                          [scored_row "A" 1; scored_row "B" 1]) = [0; 1]
  /\ map fst (top_5_outliers (sorter := numpy_argsort)
                             [scored_row "A" 1; scored_row "B" 1]) = [0; 1].
Proof. split; vm_compute; reflexivity. Qed.

(** The ranking of the sample table: best score first. *)
Example sample_ranking :
  map fst (top_5_outliers (sorter := stable_argsort) (rows sample_frame)) = [1; 0; 2].
Proof. reflexivity. Qed.

(** With one latitude missing the script stops in the marker loop: the five
    KPI tiles are on the page, the map and the charts are not. *)
Example gap_stops_the_script :
  fst (run_dashboard (sorter := stable_argsort) (summation := sequential_sum) frame_with_gap) =
    Raise (ValueError "Location values cannot contain NaNs.")
  /\ length (rendered (snd (run_dashboard (sorter := stable_argsort) (summation := sequential_sum) frame_with_gap))) = 5
  /\ length (heat_data (rows frame_with_gap)) = 1.
Proof. vm_compute. repeat split. Qed.

(** On a table without rows the script stops at the division of line 48,
    before anything is rendered. *)
Example empty_table_stops_the_script :
  run_dashboard (sorter := stable_argsort) (summation := sequential_sum) (mkFrame all_columns []) =
  (Raise ZeroDivisionError, mkState [ODataFrame (mkFrame all_columns [])] []).
Proof. reflexivity. Qed.

(** On the sample table the script runs to its end and renders ten views. *)
Example sample_run_completes :
  fst (run_dashboard (sorter := stable_argsort) (summation := sequential_sum) sample_frame) = Ok tt
  /\ length (rendered (snd (run_dashboard (sorter := stable_argsort) (summation := sequential_sum) sample_frame))) = 10
  /\ length (heap (snd (run_dashboard (sorter := stable_argsort) (summation := sequential_sum) sample_frame))) = 5.
Proof. vm_compute. repeat split. Qed.

Lemma top_n_returns_the_best_witness :
  length (top_n (sorter := stable_argsort) score_of 5
                (with_index [blank_row; scored_row "A" 1])) = Nat.min 5 2
  /\ length (filter (present score_of)
               (top_n (sorter := stable_argsort) score_of 5
                      (with_index [blank_row; scored_row "A" 1]))) = Nat.min 5 1.
Proof.
  pose proof (top_n_returns_the_best (sorter := stable_argsort) score_of 5
                (with_index [blank_row; scored_row "A" 1])) as H.
  split; [exact (proj1 H) | exact (proj1 (proj2 H))].
Defined.

Lemma top_n_order_witness :
  In (1, scored_row "A" 1)
     (top_n (sorter := numpy_argsort) score_of 1
            (with_index [blank_row; scored_row "A" 1])).
Proof.
  pose proof (top_n_order (sorter := numpy_argsort) score_of 1
                (with_index [blank_row; scored_row "A" 1])) as H.
  destruct H as (_ & _ & Hsplit & _ & _ & _).
  rewrite Hsplit. vm_compute. tauto.
Defined.

Lemma total_polling_units_witness :
  total_polling_units [scored_row "A" 1; scored_row "B" 2; scored_row "A" 3; blank_row] = 2
  /\ total_polling_units [scored_row "B" 2; scored_row "A" 1; scored_row "A" 3; blank_row] = 2.
Proof.
  apply (total_polling_units_counts_distinct_codes _ _ ["A"; "B"]%string).
  - repeat constructor; simpl; intuition discriminate.
  - intros c. simpl. split.
    + intros [<-|[<-|[]]]; auto.
    + intros [H|[H|[H|[H|[]]]]]; try (injection H as <-; auto); discriminate H.
  - apply perm_swap.
Defined.

Lemma turnout_without_registered_voters_witness :
  voter_turnout [unregistered_row] = Ok NaN.
Proof.
  apply (turnout_without_registered_voters [unregistered_row]).
  - discriminate.
  - reflexivity.
Defined.

Lemma marker_layer_witness :
  (exists e, marker_cluster frame_with_gap = Raise e /\
             (require_columns (columns frame_with_gap) marker_columns = Ok tt ->
              e = ValueError "Location values cannot contain NaNs."))
  /\ complete_geo (row_without_latitude "PU-2" "Ikeja" 4) = false
  /\ heat_data (rows frame_with_gap) = heat_data (filter complete_geo (rows frame_with_gap))
  /\ length (heat_data (rows frame_with_gap)) = length (filter complete_geo (rows frame_with_gap)).
Proof.
  apply (marker_layer_stops_at_missing_coordinates frame_with_gap
           (row_without_latitude "PU-2" "Ikeja" 4)).
  - simpl. tauto.
  - left. reflexivity.
Defined.

Lemma missing_column_witness :
  exists e,
    fst (run_dashboard (sorter := stable_argsort) (summation := sequential_sum)
                       frame_without_lga) = Raise e
    /\ length (rendered (snd (run_dashboard (sorter := stable_argsort)
                                (summation := sequential_sum) frame_without_lga)))
       <= views_before "LGA".
Proof.
  destruct (missing_column_raises_key_error (sorter := stable_argsort)
              (summation := sequential_sum) frame_without_lga "LGA")
    as (e & He & _ & Hle & _).
  - simpl. tauto.
  - reflexivity.
  - exists e. split; [exact He | exact Hle].
Defined.

Lemma loaded_table_unchanged_witness :
  Forall (fun stage : M unit =>
            extends [ODataFrame sample_frame]
                    (snd (stage (mkState [ODataFrame sample_frame] []))) /\
            nth_error (heap (snd (stage (mkState [ODataFrame sample_frame] [])))) 0 =
            Some (ODataFrame sample_frame))
         [kpi_metrics 0; geographic_map (summation := sequential_sum) 0;
          party_distribution (sorter := stable_argsort) 0;
          neighborhood_comparisons (sorter := stable_argsort) 0; historical_trends 0;
          dashboard (sorter := stable_argsort) (summation := sequential_sum) 0].
Proof.
  apply (loaded_table_unchanged (sorter := stable_argsort) (summation := sequential_sum)
           0 sample_frame (mkState [ODataFrame sample_frame] [])).
  reflexivity.
Defined.





(** * Further properties of the script *)

(** ** Heat layer and marker layer *)

(** X1.  A triple is in the heat layer exactly when some row of the table
    has these two coordinates and this score: a row that lacks a coordinate
    or the score contributes nothing. *)
Theorem heat_data_membership (df : list Row) (a b c : Q) :
  In (a, b, c) (heat_data df) <->
  exists r, In r df /\ Latitude r = Some a /\ Longitude r = Some b /\
            Global_Composite_Score r = Some c.
Proof.
  unfold heat_data. rewrite in_flat_map. split.
  - intros (r & Hr & Hin). exists r. split; [exact Hr|].
    destruct (Latitude r), (Longitude r), (Global_Composite_Score r);
      try contradiction.
    destruct Hin as [E|[]]. injection E as -> -> ->. auto.
  - intros (r & Hr & Ha & Hb & Hc). exists r. split; [exact Hr|].
    rewrite Ha, Hb, Hc. now left.
Qed.

Lemma marker_loop_describes (header : list string) (l : list Row) (ms : list MarkerT) :
  marker_loop header l = Ok ms -> Forall2 describes l ms.
Proof.
  revert ms. induction l as [|r l IH]; intros ms H; cbn [marker_loop] in H.
  - injection H as <-. constructor.
  - unfold marker_of_row in H.
    destruct (require_columns header marker_columns) as [[]|]; [|discriminate].
    unfold validate_location in H.
    destruct (Latitude r) as [a|] eqn:Ea; [|discriminate].
    destruct (Longitude r) as [b|] eqn:Eb; [|discriminate].
    destruct (marker_loop header l) as [ms'|]; [|discriminate].
    injection H as <-. constructor; [|now apply IH].
    unfold describes. simpl. auto.
Qed.

Lemma marker_loop_complete (header : list string) (l : list Row) :
  require_columns header marker_columns = Ok tt ->
  Forall (fun r => has_coordinates r = true) l ->
  exists ms, marker_loop header l = Ok ms.
Proof.
  intros Hc. induction 1 as [|r l Hr Hl [ms IH]]; [now exists []|].
  cbn [marker_loop]. unfold marker_of_row. rewrite Hc, IH.
  unfold has_coordinates, notna in Hr.
  destruct (Latitude r), (Longitude r); try discriminate.
  simpl. eauto.
Qed.

Lemma marker_loop_coordinates (header : list string) (l : list Row) (ms : list MarkerT) :
  marker_loop header l = Ok ms ->
  Forall (fun r => has_coordinates r = true) l.
Proof.
  intros H. apply marker_loop_describes in H.
  induction H as [|r m l ms (Ha & Hb & _) _ IH]; constructor; [|exact IH].
  unfold has_coordinates. now rewrite Ha, Hb.
Qed.

(** X2.  On a table with at least one row the marker loop succeeds exactly
    when the eight columns it reads exist and every row has both
    coordinates; it then yields one marker per row, in row order, at the
    row's coordinates, whether or not the row has a score. *)
Theorem marker_cluster_succeeds (d : DataFrame) :
  rows d <> [] ->
  ((exists ms, marker_cluster d = Ok ms) <->
   require_columns (columns d) marker_columns = Ok tt /\
   Forall (fun r => has_coordinates r = true) (rows d))
  /\ (forall ms, marker_cluster d = Ok ms ->
        length ms = length (rows d) /\ Forall2 describes (rows d) ms).
Proof.
  intros Hne. unfold marker_cluster. split; [split|].
  - intros [ms H]. split.
    + now apply marker_loop_ok with (l := rows d) (ms := ms).
    + now apply marker_loop_coordinates with (header := columns d) (ms := ms).
  - intros [Hc Hall]. now apply marker_loop_complete.
  - intros ms H. apply marker_loop_describes in H.
    split; [symmetry; now apply Forall2_length with (R := describes) | exact H].
Qed.

(** ** KPI tiles *)


Lemma unique_from_length (seen l : list (option string)) :
  length (unique_from seen l) <= length l.
Proof.
  revert seen. induction l as [|x l IH]; intro seen; simpl; [lia|].
  destruct (existsb (cell_eqb x) seen).
  - specialize (IH seen). lia.
  - specialize (IH (x :: seen)). simpl. lia.
Qed.

Lemma dropna_all_present {A : Type} (l : list (option A)) :
  Forall (fun c => isna c = false) l -> map Some (dropna l) = l.
Proof.
  induction 1 as [|[x|] l Hx Hl IH]; simpl; [reflexivity| |discriminate].
  now rewrite IH.
Qed.

(** X5.  The number of polling units is at most the number of rows, and it
    is the number of rows when every row has a unit code and no code
    occurs twice. *)
Theorem total_polling_units_bound (df : list Row) :
  total_polling_units df <= length df
  /\ (Forall (fun r => isna (PU_Code r) = false) df ->
      NoDup (map PU_Code df) ->
      total_polling_units df = length df).
Proof.
  unfold total_polling_units. split.
  - unfold nunique, unique.
    pose proof (filter_length_le notna (unique_from [] (map PU_Code df))) as H1.
    pose proof (unique_from_length [] (map PU_Code df)) as H2.
    rewrite length_map in H2. lia.
  - intros Hall Hnd.
    assert (Hp : Forall (fun c => isna c = false) (map PU_Code df))
      by now rewrite Forall_map.
    rewrite (nunique_counts _ (dropna (map PU_Code df))).
    + rewrite <- (length_map Some), (dropna_all_present _ Hp). apply length_map.
    + now apply dropna_NoDup.
    + intros c. apply dropna_In.
Qed.

(** ** Ranking and its long form *)

Lemma in_combine_seq {A : Type} (l : list A) (a i : nat) (x : A) :
  In (i, x) (combine (seq a (length l)) l) ->
  a <= i /\ nth_error l (i - a) = Some x.
Proof.
  revert a. induction l as [|y l IH]; intros a H; [contradiction|].
  simpl in H. destruct H as [E|H].
  - injection E as -> ->. rewrite Nat.sub_diag. split; [lia | reflexivity].
  - apply IH in H. destruct H as [Hle Hn]. split; [lia|].
    replace (i - a) with (S (i - S a)) by lia. exact Hn.
Qed.

Lemma map_fst_combine_seq {A : Type} (l : list A) (a : nat) :
  map fst (combine (seq a (length l)) l) = seq a (length l).
Proof.
  revert a. induction l as [|y l IH]; intro a; [reflexivity|].
  simpl. now rewrite IH.
Qed.

Lemma NoDup_firstn_of {A : Type} (n : nat) (l : list A) :
  NoDup l -> NoDup (firstn n l).
Proof.
  intros H. rewrite <- (firstn_skipn n l) in H.
  now apply NoDup_app_remove_r in H.
Qed.

Lemma In_firstn_of {A : Type} (n : nat) (l : list A) (x : A) :
  In x (firstn n l) -> In x l.
Proof.
  intros H. rewrite <- (firstn_skipn n l). apply in_or_app. now left.
Qed.

Lemma with_index_length (df : list Row) : length (with_index df) = length df.
Proof.
  unfold with_index. rewrite length_combine, length_seq. apply Nat.min_id.
Qed.

Lemma top_5_outliers_rows {sorter : ArgSort} (df : list Row) :
  length (top_5_outliers df) = Nat.min 5 (length df)
  /\ (forall i r, In (i, r) (top_5_outliers df) -> nth_error df i = Some r).
Proof.
  unfold top_5_outliers, top_n, head.
  pose proof (sort_values_perm score_of (with_index df)) as Hp.
  split.
  - now rewrite length_firstn, (Permutation_length Hp), with_index_length.
  - intros i r Hin. apply In_firstn_of in Hin.
    apply (Permutation_in _ Hp) in Hin.
    apply in_combine_seq in Hin. destruct Hin as [_ Hn].
    now rewrite Nat.sub_0_r in Hn.
Qed.

(** X6.  The ranking holds at most five rows.  Each comes with its index
    label, the labels are distinct, and a label is the position of its row
    in the loaded table. *)
Theorem ranking_labels_identify_rows {sorter : ArgSort} (df : list Row) :
  length (top_5_outliers df) = Nat.min 5 (length df)
  /\ NoDup (map fst (top_5_outliers df))
  /\ (forall i r, In (i, r) (top_5_outliers df) -> nth_error df i = Some r).
Proof.
  destruct (top_5_outliers_rows df) as [Hlen Hrows].
  split; [exact Hlen|]. split; [|exact Hrows].
  unfold top_5_outliers, top_n, head.
  pose proof (sort_values_perm score_of (with_index df)) as Hp.
  rewrite <- firstn_map. apply NoDup_firstn_of.
  apply (Permutation_NoDup (Permutation_sym (Permutation_map fst Hp))).
  unfold with_index. rewrite map_fst_combine_seq. apply seq_NoDup.
Qed.


Lemma sorted_perm_unique {A : Type} (R : A -> A -> Prop) (l1 l2 : list A) :
  StronglySorted R l1 -> StronglySorted R l2 -> Permutation l1 l2 ->
  (forall x y, In x l1 -> In y l1 -> R x y -> R y x -> x = y) ->
  l1 = l2.
Proof.
  intros H1. revert l2. induction H1 as [|x t Ht IH Hx]; intros l2 H2 Hp Hanti.
  - apply Permutation_nil in Hp. now subst.
  - destruct l2 as [|y t'].
    + symmetry in Hp. apply Permutation_nil in Hp. discriminate.
    + inversion H2 as [|? ? Ht' Hy]; subst.
      assert (Hxy : x = y).
      { assert (Hyin : In y (x :: t)).
        { apply (Permutation_in _ (Permutation_sym Hp)). now left. }
        assert (Hxin : In x (y :: t')).
        { apply (Permutation_in _ Hp). now left. }
        destruct Hyin as [E|Hyin]; [exact E|].
        destruct Hxin as [E|Hxin]; [now symmetry|].
        rewrite Forall_forall in Hx, Hy.
        apply Hanti; [now left | now right | now apply Hx | now apply Hy]. }
      subst y. f_equal. apply IH; [exact Ht'| |].
      * now apply Permutation_cons_inv with x.
      * intros a b Ha Hb. apply Hanti; now right.
Qed.

(** X8.  When no two rows of the frame have the same score, the rows
    returned by [top_n] and their order are the same for every sorting
    routine: the routine matters for ties only. *)
Theorem tie_free_ranking_is_determined (S1 S2 : ArgSort) {A : Type}
    (score : A -> option Q) (k : nat) (frame : list A) :
  (forall a b x y, In a frame -> In b frame ->
                   score a = Some x -> score b = Some y -> (x == y)%Q -> a = b) ->
  top_n (sorter := S1) score k frame = top_n (sorter := S2) score k frame.
Proof.
  intros Hinj. unfold top_n, head. f_equal.
  rewrite (sort_values_split (sorter := S1)), (sort_values_split (sorter := S2)).
  f_equal.
  apply (sorted_perm_unique (ranked_before score)).
  - apply ranked_present_sorted.
  - apply ranked_present_sorted.
  - rewrite (ranked_present_perm (sorter := S1)).
    symmetry. apply ranked_present_perm.
  - intros a b Ha Hb Hab Hba.
    apply (Permutation_in _ (ranked_present_perm score frame)) in Ha, Hb.
    apply filter_In in Ha, Hb. destruct Ha as [Ha Hpa], Hb as [Hb Hpb].
    pose proof (score_ge_antisym _ _ Hab Hba) as Hs.
    unfold same_score in Hs. unfold present, notna in Hpa, Hpb.
    destruct (score a) as [x|] eqn:Ex; [|discriminate].
    destruct (score b) as [y|] eqn:Ey; [|discriminate].
    now apply (Hinj a b x y).
Qed.

(** ** Rounding *)

(** X9.  The integer that [round(2)] goes through, numpy's [rint], is a
    nearest integer: within one half of its argument, the even one of the
    two when the argument is half-way between them.  It keeps the order of
    its arguments and leaves an integer as it is. *)
Theorem rint_nearest_even (q q' : Q) (z : Z) :
  (inject_Z (rint q) - q <= 1 # 2)%Q /\ (q - inject_Z (rint q) <= 1 # 2)%Q
  /\ ((q - inject_Z (rint q) == 1 # 2)%Q \/ (inject_Z (rint q) - q == 1 # 2)%Q ->
      Z.even (rint q) = true)
  /\ ((q <= q')%Q -> (rint q <= rint q')%Z)
  /\ rint (inject_Z z) = z.
Proof.
  split; [apply rint_is_nearest|]. split; [apply rint_is_nearest|].
  split; [apply rint_tie_even|]. split; [apply rint_monotone|].
  apply rint_integer. reflexivity.
Qed.

(** ** Means *)

Lemma string_leb_trans (a b c : string) :
  String.leb a b = true -> String.leb b c = true -> String.leb a c = true.
Proof.
  revert b c. induction a as [|x a IH]; intros [|y b] [|z c];
    unfold String.leb; simpl; try reflexivity; try discriminate.
  unfold Ascii.compare.
  specialize (IH b c). unfold String.leb in IH.
  destruct (N.compare_spec (N_of_ascii x) (N_of_ascii y)) as [E1|L1|G1];
    destruct (N.compare_spec (N_of_ascii y) (N_of_ascii z)) as [E2|L2|G2];
    destruct (N.compare_spec (N_of_ascii x) (N_of_ascii z)) as [E3|L3|G3];
    try discriminate; try reflexivity; try Lia.lia; try exact IH.
Qed.

Lemma nanmean_none {summation : FloatSum} {A : Type} (f : A -> option Q) (l : list A) :
  nanmean (map f l) = None <-> Forall (fun r => f r = None) l.
Proof.
  assert (Hd : dropna (map f l) = [] <-> Forall (fun r => f r = None) l).
  { induction l as [|r l IH]; simpl.
    - split; [constructor | reflexivity].
    - destruct (f r) eqn:E; simpl.
      + split; [discriminate | intros H; inversion H; congruence].
      + rewrite Forall_cons_iff, <- IH.
        split; [intros H; split; [exact E | exact H] | intros [_ H]; exact H]. }
  rewrite <- Hd. unfold nanmean.
  destruct (dropna (map f l)); split; congruence.
Qed.

(** X10.  Whatever the kernel that adds the coordinates, the centre of the
    map is undefined, and [folium.Map] raises its [ValueError], exactly when
    no row has a latitude or no row has a longitude. *)
Theorem map_center_undefined_iff {summation : FloatSum} (df : list Row) :
  ((exists e, map_center df = Raise e) <->
   Forall (fun r => Latitude r = None) df \/ Forall (fun r => Longitude r = None) df)
  /\ (forall e, map_center df = Raise e ->
        e = ValueError "Location values cannot contain NaNs.").
Proof.
  pose proof (fun f => nanmean_none f df) as Hnone.
  unfold map_center. split.
  - unfold validate_location. rewrite <- !Hnone.
    destruct (nanmean (map Latitude df)), (nanmean (map Longitude df)); split;
      try (intros [e H]; discriminate H); try (intros [H|H]; discriminate H);
      eauto.
  - intros e. apply validate_location_raise.
Qed.

(** ** The LGA table and the order of the rows *)

Lemma insert_key_sorted (k : string) (l : list string) :
  StronglySorted (fun a b => String.leb a b = true) l ->
  StronglySorted (fun a b => String.leb a b = true) (insert_key k l).
Proof.
  induction 1 as [|h t Ht IH Hh]; simpl; [repeat constructor|].
  destruct (String.leb k h) eqn:E.
  - constructor; [now constructor|].
    constructor; [exact E|].
    eapply Forall_impl; [|exact Hh].
    intros c Hc. now apply string_leb_trans with h.
  - assert (Hhk : String.leb h k = true).
    { destruct (String.leb_total k h) as [H|H]; congruence. }
    constructor; [exact IH|].
    apply Forall_forall. intros c Hc.
    apply (Permutation_in _ (insert_key_perm k t)) in Hc.
    destruct Hc as [<-|Hc]; [exact Hhk|].
    rewrite Forall_forall in Hh. now apply Hh.
Qed.

Lemma sort_keys_sorted (l : list string) :
  StronglySorted (fun a b => String.leb a b = true) (sort_keys l).
Proof.
  induction l as [|k l IH]; simpl; [constructor | now apply insert_key_sorted].
Qed.

Lemma group_keys_perm (col col' : list (option string)) :
  Permutation col col' -> group_keys col = group_keys col'.
Proof.
  intros Hp.
  apply (sorted_perm_unique (fun a b => String.leb a b = true)).
  - apply sort_keys_sorted.
  - apply sort_keys_sorted.
  - apply NoDup_Permutation; try apply group_keys_NoDup.
    intros g. rewrite !group_keys_In.
    split; apply Permutation_in; [exact Hp | now symmetry].
  - intros a b _ _. apply String.leb_antisym.
Qed.

(** X11.  The groups of [groupby("LGA")] are the LGAs named in the table,
    each once, in ascending order; the order of the rows of the table has no
    part in them. *)
Theorem group_keys_sorted_unique (col col' : list (option string)) :
  NoDup (group_keys col)
  /\ StronglySorted (fun a b => String.leb a b = true) (group_keys col)
  /\ (forall g, In g (group_keys col) <-> In (Some g) col)
  /\ (Permutation col col' -> group_keys col = group_keys col').
Proof.
  split; [apply group_keys_NoDup|].
  split; [apply sort_keys_sorted|].
  split; [apply group_keys_In | apply group_keys_perm].
Qed.

Lemma dropna_length_filter {A : Type} (l : list (option A)) :
  length (dropna l) = length (filter notna l).
Proof.
  induction l as [|[x|] l IH]; simpl; [reflexivity| |exact IH].
  now rewrite IH.
Qed.

(** X12.  The per-LGA table has as many lines as the [LGA] column has
    distinct present values, never more than the table has rows, and none
    when no row names an LGA. *)
Theorem lga_comparison_size {sorter : ArgSort} (df : list Row) :
  length (lga_comparison df) = nunique (map LGA df)
  /\ length (lga_comparison df) <= length df
  /\ (Forall (fun r => LGA r = None) df -> lga_comparison df = []).
Proof.
  assert (Hlen : length (lga_comparison df) = nunique (map LGA df)).
  { unfold lga_comparison.
    rewrite (Permutation_length (sort_values_perm (A := string * option Q) snd _)).
    rewrite length_map. unfold group_keys.
    rewrite (Permutation_length (sort_keys_perm _)).
    apply dropna_length_filter. }
  assert (Hle : nunique (map LGA df) <= length df).
  { unfold nunique, unique.
    pose proof (filter_length_le notna (unique_from [] (map LGA df))) as H1.
    pose proof (unique_from_length [] (map LGA df)) as H2.
    rewrite length_map in H2. lia. }
  split; [exact Hlen|]. split; [lia|].
  intros Hall. apply length_zero_iff_nil. rewrite Hlen.
  rewrite (nunique_counts _ []); [reflexivity | constructor |].
  intros c. split; [contradiction|].
  intros H. apply in_map_iff in H. destruct H as (r & Hr & Hin).
  rewrite Forall_forall in Hall. rewrite (Hall r Hin) in Hr. discriminate.
Qed.

(** ** The historical series *)

(** X13.  Whatever the table, the series that is charted has the four years
    2011, 2015, 2019 and 2023 in this order and no missing entry, and only
    its 2023 row depends on the table. *)
Theorem historical_series_shape (df df' : list Row) (y : Z) :
  map Hist.Year (historical_election_data df) = [2011; 2015; 2019; 2023]%Z
  /\ Forall no_gap (historical_election_data df)
  /\ (y <> 2023%Z ->
      year_row y (historical_election_data df) =
      year_row y (historical_election_data df')).
Proof.
  split; [reflexivity|]. split.
  - unfold no_gap. repeat constructor; discriminate.
  - intros Hy. unfold year_row, historical_election_data, historical_literal,
      historical_frame, fillna0. cbn [map find Hist.Year].
    destruct (2011 =? y)%Z; [reflexivity|].
    destruct (2015 =? y)%Z; [reflexivity|].
    destruct (2019 =? y)%Z; [reflexivity|].
    destruct (2023 =? y)%Z eqn:E; [|reflexivity].
    apply Z.eqb_eq in E. congruence.
Qed.

(** ** Outcomes of a run *)

Ltac key_error :=
  intros Hk; injection Hk as <-; right; right; right;
  eexists; split; [reflexivity|]; split; [simpl; tauto | assumption].

Ltac refused :=
  intros Hk; injection Hk as <-; right; right; left;
  split; [reflexivity | first [assumption | reflexivity]].

(** X15.  A run of the script ends in one of four ways only: a
    [ZeroDivisionError] (table without rows), the [ValueError] of folium's
    location check, the [ValueError] of [melt] when the table has a column
    named [Z-Score], or a [KeyError] naming a required column that the table
    lacks. *)
Theorem dashboard_exceptions {sorter : ArgSort} {summation : FloatSum}
    (d : DataFrame) (e : exn) :
  fst (run_dashboard d) = Raise e -> expected_exception d e.
Proof.
  unfold run_dashboard, dashboard, kpi_metrics, expected_exception.
  run. columns_by key_error.
  destruct (turnout _ _) as [pct|e'] eqn:Ht; run.
  2:{ apply turnout_raise in Ht. subst e'. intros Hk. injection Hk as <-. now left. }
  unfold geographic_map. run. columns_by key_error.
  destruct (validate_location _ _) as [center|e'] eqn:Hv; run.
  2:{ apply validate_location_raise in Hv. subst e'.
      intros Hk. injection Hk as <-. right. now left. }
  destruct (marker_cluster d) as [ms|e'] eqn:Hm; run.
  2:{ apply marker_loop_raise in Hm. intros Hk. injection Hk as <-.
      destruct Hm as [->|(c' & -> & Hc1 & Hc2)]; [right; now left|].
      right. right. right. exists c'. split; [reflexivity|]. split; [|assumption].
      revert Hc1. simpl. tauto. }
  columns_by key_error.
  unfold party_distribution. run.
  unfold shown_columns, z_score_columns. cbn [map fst]. run. columns_by key_error.
  value_name_by refused.
  known.
  unfold neighborhood_comparisons. run. columns_by key_error.
  unfold historical_trends. run. columns_by key_error.
  discriminate.
Qed.

(** X16.  Views reach the page stage by stage.  Whatever the table, the
    views of a run are the first 0, 5, 6, 7, 8, 9 or 10 of the page, in the
    order of the page: the five KPI tiles come together, then the map, the
    ranking table, its chart, the LGA chart, the history chart. *)
Theorem rendered_in_stage_units {sorter : ArgSort} {summation : FloatSum} (d : DataFrame) :
  In (length (rendered (snd (run_dashboard d)))) [0; 5; 6; 7; 8; 9; 10]
  /\ map view_title (rendered (snd (run_dashboard d))) =
     firstn (length (rendered (snd (run_dashboard d)))) page_titles.
Proof. exact (proj1 (run_as_read d)). Qed.

Lemma turnout_ok_rows (df : list Row) :
  df <> [] -> exists x, turnout (total_accredited df) (total_registered df) = Ok x.
Proof.
  intros Hne.
  assert (Hr : sdtype (total_registered df) <> object).
  { apply series_sum_dtype. now destruct df. }
  unfold turnout, true_divide.
  destruct (sdtype (total_accredited df)), (sdtype (total_registered df));
    try congruence;
    destruct (sval (total_registered df) =? 0)%Z; eauto.
Qed.

Lemma map_center_ok {summation : FloatSum} (df : list Row) :
  df <> [] -> Forall (fun r => has_coordinates r = true) df ->
  exists c, map_center df = Ok c.
Proof.
  intros Hne Hall. unfold map_center, validate_location.
  destruct df as [|r l]; [congruence|].
  inversion Hall as [|? ? Hr _]; subst.
  unfold has_coordinates, notna in Hr.
  destruct (nanmean (map Latitude (r :: l))) as [a|] eqn:Ea.
  - destruct (nanmean (map Longitude (r :: l))) as [b|] eqn:Eb; [eauto|].
    apply nanmean_none in Eb. inversion Eb as [|? ? Hb _]; subst.
    rewrite Hb in Hr. destruct (Latitude r); discriminate.
  - apply nanmean_none in Ea. inversion Ea as [|? ? Ha _]; subst.
    rewrite Ha in Hr. discriminate.
Qed.

Ltac failed := intros Hk; discriminate Hk.

Lemma dashboard_ok_ready {sorter : ArgSort} {summation : FloatSum} (d : DataFrame) :
  fst (run_dashboard d) = Ok tt -> ready d.
Proof.
  unfold run_dashboard, dashboard, kpi_metrics.
  run. columns_by failed.
  destruct (turnout _ _) as [pct|e'] eqn:Ht; run; [|failed].
  assert (Hrows : rows d <> []).
  { intros Hr. rewrite Hr, turnout_empty in Ht. discriminate. }
  unfold geographic_map. run. columns_by failed.
  destruct (validate_location _ _) as [center|e'] eqn:Hv; run; [|failed].
  destruct (marker_cluster d) as [ms|e'] eqn:Hm; run; [|failed].
  pose proof (marker_loop_coordinates _ _ _ Hm) as Hcoord.
  apply marker_loop_ok in Hm; [|assumption].
  apply require_columns_ok in Hm. unfold marker_columns in Hm.
  repeat match goal with H : Forall _ (_ :: _) |- _ => inversion H; clear H; subst end.
  columns_by failed.
  unfold party_distribution. run.
  unfold shown_columns, z_score_columns. cbn [map fst]. run. columns_by failed.
  value_name_by failed.
  known.
  unfold neighborhood_comparisons. run. columns_by failed.
  unfold historical_trends. run. columns_by failed.
  intros _. split; [|split; [|split]]; try assumption.
  unfold required_columns. repeat constructor; assumption.
Qed.

(** The run of a table that has what the map stage needs, up to the ranking
    table. *)
Ltac through_the_map Ht Hc Hm :=
  unfold run_dashboard, dashboard, kpi_metrics; run; known;
  rewrite Ht; run;
  unfold geographic_map; run; known; rewrite Hc; run; rewrite Hm; run; known;
  unfold party_distribution; run;
  unfold shown_columns, z_score_columns; cbn [map fst]; run; known;
  unfold check_value_name.

Lemma marker_columns_present (header : list string) :
  Forall (fun c => has_column header c = true) required_columns ->
  require_columns header marker_columns = Ok tt.
Proof.
  intros Hcols. unfold required_columns in Hcols.
  repeat match goal with H : Forall _ (_ :: _) |- _ => inversion H; clear H; subst end.
  unfold marker_columns. cbn [require_columns].
  repeat match goal with
         | H : has_column ?h ?c = true |- context [has_column ?h ?c] => rewrite H
         end. reflexivity.
Qed.

Lemma dashboard_ready_ok {sorter : ArgSort} {summation : FloatSum} (d : DataFrame) :
  ready d ->
  exists pct center ms,
    voter_turnout (rows d) = Ok pct /\ map_center (rows d) = Ok center /\
    marker_cluster d = Ok ms /\
    run_dashboard d = (Ok tt, mkState (final_store d) (page d pct center ms)).
Proof.
  intros (Hcols & Hz & Hrows & Hcoord).
  destruct (turnout_ok_rows _ Hrows) as [pct Ht].
  destruct (map_center_ok _ Hrows Hcoord) as [center Hc].
  pose proof (marker_columns_present _ Hcols) as Hreq.
  destruct (marker_loop_complete _ _ Hreq Hcoord) as [ms Hm].
  exists pct, center, ms. split; [exact Ht|]. split; [exact Hc|]. split; [exact Hm|].
  unfold required_columns in Hcols.
  repeat match goal with H : Forall _ (_ :: _) |- _ => inversion H; clear H; subst end.
  unfold map_center in Hc. fold (marker_cluster d) in Hm.
  through_the_map Ht Hc Hm. rewrite Hz. run. known.
  unfold neighborhood_comparisons. run. known.
  unfold historical_trends. run. known.
  reflexivity.
Qed.

(** X14.  The script runs to its end exactly when the table has every
    required column and none named [Z-Score], at least one row, and both
    coordinates in every row.  It then renders the ten views computed from
    the loaded rows and leaves five frames in the store: the loaded table,
    the ranking, its long form, the LGA table and the filled historical
    frame. *)
Theorem dashboard_completes_iff {sorter : ArgSort} {summation : FloatSum} (d : DataFrame) :
  (fst (run_dashboard d) = Ok tt <-> ready d)
  /\ (ready d ->
      exists pct center ms,
        voter_turnout (rows d) = Ok pct /\ map_center (rows d) = Ok center /\
        marker_cluster d = Ok ms /\
        run_dashboard d = (Ok tt, mkState (final_store d) (page d pct center ms))).
Proof.
  split; [split|].
  - apply dashboard_ok_ready.
  - intros H. destruct (dashboard_ready_ok d H) as (? & ? & ? & _ & _ & _ & ->).
    reflexivity.
  - apply dashboard_ready_ok.
Qed.

(** X17.  On a table with every required column, one row without a
    latitude or a longitude is enough to stop the script in the map stage:
    the five KPI tiles are rendered, the map and the charts are not, and the
    store holds the loaded table only. *)
Theorem coordinate_gap_stops_after_the_tiles {sorter : ArgSort} {summation : FloatSum}
    (d : DataFrame) (r : Row) :
  Forall (fun c => has_column (columns d) c = true) required_columns ->
  In r (rows d) -> has_coordinates r = false ->
  exists pct,
    voter_turnout (rows d) = Ok pct /\
    run_dashboard d =
    (Raise (ValueError "Location values cannot contain NaNs."),
     mkState [ODataFrame d] (tiles (rows d) pct)).
Proof.
  intros Hcols Hin Hgap.
  assert (Hrows : rows d <> []) by (intros E; rewrite E in Hin; contradiction).
  destruct (turnout_ok_rows _ Hrows) as [pct Ht].
  exists pct. split; [exact Ht|].
  pose proof (marker_columns_present _ Hcols) as Hreq.
  unfold required_columns in Hcols.
  repeat match goal with H : Forall _ (_ :: _) |- _ => inversion H; clear H; subst end.
  assert (Hg : Latitude r = None \/ Longitude r = None).
  { unfold has_coordinates, notna in Hgap.
    destruct (Latitude r), (Longitude r); auto; discriminate. }
  destruct (marker_loop_incomplete (columns d) _ r Hin Hg) as (e & Hm & He).
  specialize (He Hreq). subst e. fold (marker_cluster d) in Hm.
  unfold run_dashboard, dashboard, kpi_metrics. run. known.
  rewrite Ht. run.
  unfold geographic_map. run. known.
  destruct (validate_location _ _) as [center|e'] eqn:Hv; run.
  - rewrite Hm. reflexivity.
  - apply validate_location_raise in Hv. now subst e'.
Qed.

(** X18.  A column named [Z-Score] in the loaded table stops the script at
    [melt], which refuses a [value_name] that is a column already: the
    tiles, the map and the ranking table are on the page, the chart of the
    z-scores and everything after it are not, and the store holds the loaded
    table and the ranking. *)
Theorem value_name_collision_stops_after_the_table
    {sorter : ArgSort} {summation : FloatSum} (d : DataFrame) :
  Forall (fun c => has_column (columns d) c = true) required_columns ->
  has_column (columns d) "Z-Score" = true ->
  rows d <> [] ->
  Forall (fun r => has_coordinates r = true) (rows d) ->
  exists pct center ms,
    voter_turnout (rows d) = Ok pct /\ map_center (rows d) = Ok center /\
    marker_cluster d = Ok ms /\
    run_dashboard d =
    (Raise (ValueError
              "value_name (Z-Score) cannot match an element in the DataFrame columns."),
     mkState [ODataFrame d; ORanking (columns d) (top_5_outliers (rows d))]
             (tiles (rows d) pct ++
              [FoliumMap center ms (heat_data (rows d));
               Table (top_5_outliers (rows d))])).
Proof.
  intros Hcols Hz Hrows Hcoord.
  destruct (turnout_ok_rows _ Hrows) as [pct Ht].
  destruct (map_center_ok _ Hrows Hcoord) as [center Hc].
  pose proof (marker_columns_present _ Hcols) as Hreq.
  destruct (marker_loop_complete _ _ Hreq Hcoord) as [ms Hm].
  exists pct, center, ms. split; [exact Ht|]. split; [exact Hc|]. split; [exact Hm|].
  unfold required_columns in Hcols.
  repeat match goal with H : Forall _ (_ :: _) |- _ => inversion H; clear H; subst end.
  unfold map_center in Hc. fold (marker_cluster d) in Hm.
  through_the_map Ht Hc Hm. rewrite Hz. reflexivity.
Qed.

(** ** The further properties at sample tables *)

Lemma heat_data_membership_witness :
  In (6.5, 3.4, 2.5)%Q (heat_data (rows sample_frame)).
Proof.
  apply (proj2 (heat_data_membership (rows sample_frame) 6.5 3.4 2.5)).
  exists (full_row "PU-1" "Ikeja" 2.5). simpl. tauto.
Defined.

Lemma marker_cluster_succeeds_witness :
  exists ms, marker_cluster sample_frame = Ok ms.
Proof.
  assert (Hne : rows sample_frame <> []) by discriminate.
  apply (proj2 (proj1 (marker_cluster_succeeds sample_frame Hne))).
  split; [reflexivity | repeat constructor].
Defined.


Lemma total_polling_units_bound_witness :
  total_polling_units (rows sample_frame) = 3.
Proof.
  apply (proj2 (total_polling_units_bound (rows sample_frame))).
  - repeat constructor.
  - simpl. repeat constructor; simpl; intuition discriminate.
Defined.

Lemma ranking_labels_witness :
  nth_error (rows sample_frame) 1 = Some (full_row "PU-2" "Ikeja" 4).
Proof.
  apply (proj2 (proj2 (ranking_labels_identify_rows (sorter := stable_argsort)
                         (rows sample_frame)))).
  vm_compute. tauto.
Defined.


Lemma tie_free_ranking_witness :
  top_n (sorter := stable_argsort) score_of 5 (with_index (rows sample_frame)) =
  top_n (sorter := numpy_argsort) score_of 5 (with_index (rows sample_frame)).
Proof.
  apply tie_free_ranking_is_determined.
  intros a b x y Ha Hb Ex Ey E.
  simpl in Ha, Hb.
  destruct Ha as [<-|[<-|[<-|[]]]]; destruct Hb as [<-|[<-|[<-|[]]]];
    try reflexivity;
    injection Ex as <-; injection Ey as <-; discriminate E.
Defined.

Lemma rint_nearest_even_witness :
  Z.even (rint (5 # 2)) = true /\ (rint (5 # 2) <= rint (7 # 2))%Z.
Proof.
  destruct (rint_nearest_even (5 # 2) (7 # 2) 0) as (_ & _ & Heven & Hmono & _).
  split.
  - apply Heven. left. reflexivity.
  - apply Hmono. unfold Qle. simpl. lia.
Defined.

Lemma map_center_witness :
  exists e, map_center (summation := sequential_sum) [blank_row] = Raise e.
Proof.
  apply (proj2 (proj1 (map_center_undefined_iff (summation := sequential_sum) [blank_row]))).
  left. repeat constructor.
Defined.

Lemma group_keys_witness :
  group_keys (map LGA (rows sample_frame)) =
  group_keys (map LGA (rev (rows sample_frame))).
Proof.
  apply (proj2 (proj2 (proj2 (group_keys_sorted_unique
                                (map LGA (rows sample_frame))
                                (map LGA (rev (rows sample_frame))))))).
  apply Permutation_map, Permutation_rev.
Defined.

Lemma lga_comparison_size_witness :
  lga_comparison (sorter := stable_argsort) [blank_row] = [].
Proof.
  apply (proj2 (proj2 (lga_comparison_size (sorter := stable_argsort) [blank_row]))).
  repeat constructor.
Defined.

Lemma historical_series_shape_witness :
  year_row 2011 (historical_election_data (rows sample_frame)) =
  year_row 2011 (historical_election_data []).
Proof.
  apply (proj2 (proj2 (historical_series_shape (rows sample_frame) [] 2011))).
  discriminate.
Defined.

Lemma dashboard_completes_witness :
  fst (run_dashboard (sorter := stable_argsort) (summation := sequential_sum)
                     sample_frame) = Ok tt.
Proof.
  apply (proj2 (proj1 (dashboard_completes_iff (sorter := stable_argsort)
                         (summation := sequential_sum) sample_frame))).
  unfold ready. split; [|split; [|split]].
  - repeat constructor.
  - reflexivity.
  - discriminate.
  - repeat constructor.
Defined.

Lemma dashboard_exceptions_witness :
  expected_exception frame_without_lga (KeyError "LGA").
Proof.
  apply (dashboard_exceptions (sorter := stable_argsort) (summation := sequential_sum)
           frame_without_lga).
  reflexivity.
Defined.

Lemma rendered_in_stage_units_witness :
  map view_title
      (rendered (snd (run_dashboard (sorter := stable_argsort)
                        (summation := sequential_sum) frame_with_z_score))) =
  firstn 7 page_titles.
Proof.
  exact (proj2 (rendered_in_stage_units (sorter := stable_argsort)
                  (summation := sequential_sum) frame_with_z_score)).
Defined.

Lemma value_name_collision_witness :
  fst (run_dashboard (sorter := stable_argsort) (summation := sequential_sum)
                     frame_with_z_score) =
  Raise (ValueError
           "value_name (Z-Score) cannot match an element in the DataFrame columns.").
Proof.
  destruct (value_name_collision_stops_after_the_table
              (sorter := stable_argsort) (summation := sequential_sum)
              frame_with_z_score)
    as (pct & center & ms & _ & _ & _ & ->).
  - repeat constructor.
  - reflexivity.
  - discriminate.
  - repeat constructor.
  - reflexivity.
Defined.

Lemma coordinate_gap_witness :
  exists pct,
    voter_turnout (rows frame_with_gap) = Ok pct /\
    run_dashboard (sorter := stable_argsort) (summation := sequential_sum) frame_with_gap =
    (Raise (ValueError "Location values cannot contain NaNs."),
     mkState [ODataFrame frame_with_gap] (tiles (rows frame_with_gap) pct)).
Proof.
  apply (coordinate_gap_stops_after_the_tiles (sorter := stable_argsort)
           (summation := sequential_sum) frame_with_gap (row_without_latitude "PU-2" "Ikeja" 4)).
  - repeat constructor.
  - simpl. tauto.
  - reflexivity.
Defined.
